(** * Spring animations: the numerical core of the [Spring] class

    A shallow embedding of the parameter resolver ([constructor],
    [initFromDurationAndBounce], [calculateBounceFromDamping], the static
    helpers) and of the motion evaluator ([calculateSpringValue],
    [generateBezierPoints]) of the spring-animations library.

    Numbers.  JavaScript numbers are IEEE-754 doubles.  They are idealised
    here as real numbers extended with the three special values the code
    can produce: [PInf], [NInf] and [NaN].  Rounding, overflow and the sign
    of zero are outside the model; everything else (what [Math.sqrt] does
    on a negative argument, what a division by zero yields, how [NaN]
    propagates and compares) follows the language. *)

From Stdlib Require Import Reals Lra Lia Ascii String List.
From stdpp Require Import gmap strings.
Import ListNotations.
Open Scope R_scope.

(** ** JavaScript numbers *)

Module JSNumber.

Inductive num : Type :=
| Fin (r : R)
| PInf
| NInf
| NaN.

Coercion Fin : R >-> num.

Definition inf_signed (positive : bool) : num :=
  if positive then PInf else NInf.

(** [±Infinity * y]. *)
Definition mul_inf (positive : bool) (y : num) : num :=
  match y with
  | Fin r =>
      if Rlt_dec 0 r then inf_signed positive
      else if Rlt_dec r 0 then inf_signed (negb positive)
      else NaN
  | PInf => inf_signed positive
  | NInf => inf_signed (negb positive)
  | NaN => NaN
  end.

Definition neg (x : num) : num :=
  match x with
  | Fin r => Fin (- r)
  | PInf => NInf
  | NInf => PInf
  | NaN => NaN
  end.

Definition add (x y : num) : num :=
  match x, y with
  | Fin a, Fin b => Fin (a + b)
  | NaN, _ | _, NaN => NaN
  | PInf, NInf | NInf, PInf => NaN
  | PInf, _ | _, PInf => PInf
  | NInf, _ | _, NInf => NInf
  end.

Definition sub (x y : num) : num := add x (neg y).

Definition mul (x y : num) : num :=
  match x, y with
  | Fin a, Fin b => Fin (a * b)
  | Fin _, PInf => mul_inf true x
  | Fin _, NInf => mul_inf false x
  | PInf, _ => mul_inf true y
  | NInf, _ => mul_inf false y
  | _, _ => NaN
  end.

(** [x / y]; a finite non-zero number over zero is the infinity of its
    sign, [0 / 0] is [NaN]. *)
Definition div (x y : num) : num :=
  match x, y with
  | Fin a, Fin b =>
      if Req_dec_T b 0 then mul_inf true x else Fin (a / b)
  | Fin _, (PInf | NInf) => Fin 0
  | PInf, Fin b => if Rlt_dec b 0 then NInf else PInf
  | NInf, Fin b => if Rlt_dec b 0 then PInf else NInf
  | _, _ => NaN
  end.

(** Comparisons: every comparison with [NaN] is false. *)
Definition le (x y : num) : bool :=
  match x, y with
  | NaN, _ | _, NaN => false
  | Fin a, Fin b => if Rle_dec a b then true else false
  | NInf, _ | _, PInf => true
  | _, _ => false
  end.

Definition lt (x y : num) : bool :=
  match x, y with
  | NaN, _ | _, NaN => false
  | Fin a, Fin b => if Rlt_dec a b then true else false
  | PInf, _ | _, NInf => false
  | _, _ => true
  end.

(** ToBoolean on a number: [0] and [NaN] are falsy. *)
Definition truthy (x : num) : bool :=
  match x with
  | Fin r => if Req_dec_T r 0 then false else true
  | NaN => false
  | _ => true
  end.

(** [v || d] where [v] is a property read: a missing property reads as
    [undefined], which is falsy. *)
Definition or_default (v : option num) (d : num) : num :=
  match v with
  | Some x => if truthy x then x else d
  | None => d
  end.

Definition Math_PI : num := Fin PI.

Definition Math_sqrt (x : num) : num :=
  match x with
  | Fin r => if Rlt_dec r 0 then NaN else Fin (sqrt r)
  | PInf => PInf
  | _ => NaN
  end.

Definition Math_exp (x : num) : num :=
  match x with
  | Fin r => Fin (exp r)
  | PInf => PInf
  | NInf => Fin 0
  | NaN => NaN
  end.

Definition Math_cos (x : num) : num :=
  match x with
  | Fin r => Fin (cos r)
  | _ => NaN
  end.

Definition Math_abs (x : num) : num :=
  match x with
  | Fin r => Fin (Rabs r)
  | NaN => NaN
  | _ => PInf
  end.

Definition Math_max (x y : num) : num :=
  match x, y with
  | NaN, _ | _, NaN => NaN
  | _, _ => if le x y then y else x
  end.

Definition Math_min (x y : num) : num :=
  match x, y with
  | NaN, _ | _, NaN => NaN
  | _, _ => if le x y then x else y
  end.

(** [Math.pow(x, n)] for a natural exponent [n]. *)
Fixpoint Math_pow (x : num) (n : nat) : num :=
  match n with
  | O => Fin 1
  | S k => mul x (Math_pow x k)
  end.

End JSNumber.

Export JSNumber.

Declare Scope js_scope.
Delimit Scope js_scope with js.
Bind Scope js_scope with num.
Notation "x + y" := (add x y) : js_scope.
Notation "x - y" := (sub x y) : js_scope.
Notation "x * y" := (mul x y) : js_scope.
Notation "x / y" := (div x y) : js_scope.
Notation "- x" := (neg x) : js_scope.
Notation "x <=? y" := (le x y) (at level 70, no associativity) : js_scope.
Notation "x <? y" := (lt x y) (at level 70, no associativity) : js_scope.
Notation "x >=? y" := (le y x) (at level 70, no associativity) : js_scope.
Notation "x >? y" := (lt y x) (at level 70, no associativity) : js_scope.

(** ** The data model *)

(** The numeric fields of a [Spring] instance.  A field that holds
    [undefined] is recorded as [NaN]: every read of these fields in the
    class goes through a numeric operator or a [Math] function, and
    ToNumber maps [undefined] to [NaN].  The fields [properties] and
    [useBezier] only steer the writes to the page and are left out. *)
Record Spring : Type := mkSpring {
  mass : num;
  stiffness : num;
  damping : num;
  duration : num;
  bounce : num
}.

(** An entry of the preset table: a [(duration, bounce)] pair. *)
Record preset : Type := mkPreset {
  p_duration : num;
  p_bounce : num
}.

(** The argument of the constructor: a preset name or a configuration
    object.  Of an object only its numeric properties are kept. *)
Inductive config : Type :=
| CfgString (name : string)
| CfgObject (o : gmap string num).

(** A constructor call either returns the instance or throws. *)
Inductive result (A : Type) : Type :=
| Ok (a : A)
| Throw (message : string).
Arguments Ok {A} a.
Arguments Throw {A} message.

(** ** The parameter resolver *)

Module Resolver.

(** [static PRESETS]: the own properties of the table. *)
Definition PRESETS : gmap string preset :=
  {[ "bouncy"%string := mkPreset 0.7 0.4;
     "smooth"%string := mkPreset 0.5 0;
     "flattened"%string := mkPreset 0.4 (-0.2) ]}.

(** [PRESETS] is an object literal, so a property read that misses the own
    properties continues in [Object.prototype], whose members are
    functions (and, for [__proto__], the prototype object itself). *)
Definition Object_prototype : gset string :=
  list_to_set
    [ "constructor"; "hasOwnProperty"; "isPrototypeOf";
      "propertyIsEnumerable"; "toLocaleString"; "toString"; "valueOf";
      "__proto__"; "__defineGetter__"; "__defineSetter__";
      "__lookupGetter__"; "__lookupSetter__" ]%string.

(** What [Spring.PRESETS[name]] evaluates to. *)
Inductive property : Type :=
| Own (p : preset)
| Inherited
| Undefined.

Definition PRESETS_get (name : string) : property :=
  match PRESETS !! name with
  | Some p => Own p
  | None => if decide (name ∈ Object_prototype) then Inherited else Undefined
  end.

Definition initFromDurationAndBounce (duration bounce : num) : Spring :=
  {| duration := duration;
     bounce := bounce;
     mass := 1;
     stiffness := Math_pow ((2 * Math_PI) / duration) 2;
     damping :=
       if (bounce >=? 0)%js
       then (1 - 4 * Math_PI * bounce / duration)%js
       else ((4 * Math_PI) / (duration + 4 * Math_PI * bounce))%js |}.

Definition calculateBounceFromDamping (this : Spring) : num :=
  let criticalDamping := (2 * Math_sqrt (mass this * stiffness this))%js in
  ((criticalDamping - damping this) / criticalDamping)%js.

Definition set_bounce (this : Spring) (b : num) : Spring :=
  {| mass := mass this; stiffness := stiffness this;
     damping := damping this; duration := duration this; bounce := b |}.

(** [constructor(config = {})].  An inherited member of the table is
    truthy and has neither a [duration] nor a [bounce] property, so both
    destructure to [undefined]. *)
Definition constructor (cfg : config) : result Spring :=
  match cfg with
  | CfgString name =>
      match PRESETS_get name with
      | Undefined => Throw ("Unknown preset: " ++ name)
      | Own p => Ok (initFromDurationAndBounce (p_duration p) (p_bounce p))
      | Inherited => Ok (initFromDurationAndBounce NaN NaN)
      end
  | CfgObject o =>
      match o !! "mass"%string, o !! "stiffness"%string, o !! "damping"%string with
      | Some m, Some s, Some d =>
          let this :=
            {| mass := m; stiffness := s; damping := d;
               duration := (2 * Math_PI / Math_sqrt (s / m))%js;
               bounce := NaN |} in
          Ok (set_bounce this (calculateBounceFromDamping this))
      | _, _, _ =>
          Ok (initFromDurationAndBounce
                (or_default (o !! "duration"%string) 0.5)
                (Math_max (-1) (Math_min 1 (or_default (o !! "bounce"%string) 0))))
      end
  end.

(** The spread [{ ...Spring.PRESETS[presetName] }]: the own enumerable
    properties of a table entry; nothing for a function, for
    [Object.prototype] or for [undefined]. *)
Definition spread_preset (v : property) : gmap string num :=
  match v with
  | Own p => {[ "duration"%string := p_duration p; "bounce"%string := p_bounce p ]}
  | _ => ∅
  end.

Definition fromPreset (presetName : string) : result Spring :=
  constructor (CfgObject (spread_preset (PRESETS_get presetName))).

Definition fromPhysics (mass stiffness damping : num) : result Spring :=
  constructor (CfgObject {[ "mass"%string := mass;
                            "stiffness"%string := stiffness;
                            "damping"%string := damping ]}).

Definition fromDurationAndBounce (duration bounce : num) : result Spring :=
  constructor (CfgObject {[ "duration"%string := duration;
                            "bounce"%string := bounce ]}).

End Resolver.

(** ** The motion evaluator *)

Module Evaluator.

Definition calculateSpringValue (this : Spring) (t : num) : num :=
  let normalizedTime := (t / duration this)%js in
  if (bounce this >? 0)%js then
    let omega := Math_sqrt (stiffness this / mass this) in
    let zeta := (damping this / (2 * Math_sqrt (mass this * stiffness this)))%js in
    (Math_exp (- zeta * omega * normalizedTime)
     * Math_cos (omega * Math_sqrt (1 - zeta * zeta) * normalizedTime))%js
  else
    let a := (damping this
              + Math_sqrt (damping this * damping this - 4 * stiffness this))%js in
    let b := (damping this
              - Math_sqrt (damping this * damping this - 4 * stiffness this))%js in
    ((Math_exp (- a * normalizedTime) + Math_exp (- b * normalizedTime)) / 2)%js.

Definition generateBezierPoints (this : Spring) : list num :=
  if (bounce this <=? 0)%js then
    let x1 := (0.16 + 0.12 * Math_abs (bounce this))%js in
    let y1 : num := 0 in
    let x2 := (0.28 + 0.12 * Math_abs (bounce this))%js in
    let y2 : num := 1 in
    [x1; y1; x2; y2]
  else
    let overshoot := (bounce this * 0.2)%js in
    let x1 : num := 0.2 in
    let y1 := (0.2 + overshoot)%js in
    let x2 : num := 0.8 in
    let y2 := (1 + overshoot)%js in
    [x1; y1; x2; y2].

End Evaluator.

Import Resolver Evaluator.

(** ** The second variant of the class (springs.js)

    The repository also ships a [Spring] class whose constructor takes the
    physical parameters with defaults and applies a preset, when one is
    named, from a table of its own. *)

Module SpringsJs.

Record presetConfig : Type := mkPresetConfig {
  pc_bounce : num;
  pc_stiffness : num;
  pc_damping : num
}.

Definition presets : gmap string presetConfig :=
  {[ "bouncy"%string := mkPresetConfig 0.4 200 5;
     "smooth"%string := mkPresetConfig 0 100 8;
     "flattened"%string := mkPresetConfig (-0.4) 80 15 ]}.

(** [String.prototype.toLowerCase] on ASCII letters. *)
Definition lower_ascii (c : ascii) : ascii :=
  let n := nat_of_ascii c in
  if ((65 <=? n) && (n <=? 90))%nat then ascii_of_nat (n + 32) else c.

Fixpoint toLowerCase (s : string) : string :=
  match s with
  | EmptyString => EmptyString
  | String c rest => String (lower_ascii c) (toLowerCase rest)
  end.

(** [applyPreset(preset)]: an unknown name leaves the instance as it is; a
    name found in [Object.prototype] is truthy and its three properties
    read as [undefined]. *)
Definition applyPreset (this : Spring) (preset : string) : Spring :=
  let name := toLowerCase preset in
  match presets !! name with
  | Some pc =>
      {| mass := mass this; duration := duration this;
         bounce := pc_bounce pc; stiffness := pc_stiffness pc;
         damping := pc_damping pc |}
  | None =>
      if decide (name ∈ Resolver.Object_prototype)
      then {| mass := mass this; duration := duration this;
              bounce := NaN; stiffness := NaN; damping := NaN |}
      else this
  end.

(** [constructor({duration = 0.5, bounce = 0.2, mass = 1, stiffness = 100,
    damping = 10, preset = null} = {})]. *)
Definition constructor (o : gmap string num) (preset : option string) : Spring :=
  let this :=
    {| mass := default (Fin 1) (o !! "mass"%string);
       stiffness := default (Fin 100) (o !! "stiffness"%string);
       damping := default (Fin 10) (o !! "damping"%string);
       duration := default (Fin 0.5) (o !! "duration"%string);
       bounce := default (Fin 0.2) (o !! "bounce"%string) |} in
  match preset with
  | Some (String _ _ as name) => applyPreset this name
  | Some EmptyString | None => this
  end.

End SpringsJs.

(** ** The specification's formulas

    The evaluation rule as the specification words it: normalise the
    time, then pick the regime by the sign of [bounce]. *)

Module Spec.

Definition normalized_time (m : Spring) (elapsed : num) : num :=
  (elapsed / duration m)%js.

Definition natural_frequency (m : Spring) : num :=
  Math_sqrt (stiffness m / mass m).

Definition damping_ratio (m : Spring) : num :=
  (damping m / (2 * Math_sqrt (mass m * stiffness m)))%js.

Definition oscillatory (m : Spring) (t' : num) : num :=
  let omega := natural_frequency m in
  let zeta := damping_ratio m in
  (Math_exp (- (zeta * omega * t'))
   * Math_cos (omega * Math_sqrt (1 - Math_pow zeta 2) * t'))%js.

Definition overdamped (m : Spring) (t' : num) : num :=
  let root := Math_sqrt (Math_pow (damping m) 2 - 4 * stiffness m)%js in
  let a := (damping m + root)%js in
  let b := (damping m - root)%js in
  ((Math_exp (- (a * t')) + Math_exp (- (b * t'))) / 2)%js.

Definition evaluate (m : Spring) (elapsed : num) : num :=
  let t' := normalized_time m elapsed in
  if (bounce m >? 0)%js then oscillatory m t' else overdamped m t'.

(** The clamp of a real to [[-1, 1]]. *)
Definition clamp (b : R) : R := Rmax (-1) (Rmin 1 b).

End Spec.

(** ** Strings

    [String.prototype.split] with a one-character separator and
    [String.prototype.trim], on ASCII text (the white space that [trim]
    removes is then tab, line feed, vertical tab, form feed, carriage
    return and space). *)

Module JSString.

Definition is_whitespace (c : ascii) : bool :=
  let n := nat_of_ascii c in
  ((9 <=? n) && (n <=? 13) || (n =? 32))%nat.

Fixpoint trimStart (s : string) : string :=
  match s with
  | EmptyString => EmptyString
  | String c rest => if is_whitespace c then trimStart rest else s
  end.

Fixpoint trimEnd (s : string) : string :=
  match s with
  | EmptyString => EmptyString
  | String c rest =>
      match trimEnd rest with
      | EmptyString => if is_whitespace c then EmptyString else String c EmptyString
      | kept => String c kept
      end
  end.

Definition trim (s : string) : string := trimEnd (trimStart s).

(** [s.split(sep)]: always at least one piece; the empty string splits
    into one empty piece. *)
Fixpoint split (sep : ascii) (s : string) : list string :=
  match s with
  | EmptyString => [EmptyString]
  | String c rest =>
      if Ascii.eqb c sep then EmptyString :: split sep rest
      else match split sep rest with
           | piece :: pieces => String c piece :: pieces
           | [] => [String c EmptyString]
           end
  end.

(** The character [c] occurs in [s]. *)
Definition occurs (c : ascii) (s : string) : Prop :=
  In c (list_ascii_of_string s).

(** ToBoolean on a string. *)
Definition nonempty (s : string) : bool :=
  match s with EmptyString => false | String _ _ => true end.

End JSString.

(** ** The page-facing methods of the class

    What [animate], [updateElementProperties] and [applyBezierAnimation]
    do to the element is the sequence of assignments
    [element.style[name] = text] they make.  The clock and the frame
    scheduler are inputs: the time [performance.now()] returns when
    [animate] starts, and the time stamps that [requestAnimationFrame]
    hands to the callback, frame after frame. *)

Module Animation.

Record instance : Type := mkInstance {
  spring : Spring;
  properties : list string;
  useBezier : bool
}.

(** The assignment [element.style[name] = text]. *)
Definition assignment : Type := (string * string)%type.

(** The style after a sequence of assignments: each name holds the text
    last assigned to it.  (What a browser does with the text of a
    declaration afterwards is outside the class and outside the model.) *)
Definition assign (style : gmap string string) (writes : list assignment)
  : gmap string string :=
  foldl (fun st w => <[fst w := snd w]> st) style writes.

Section Writes.

(** The text of a number, as a template literal or the style object
    produces it. *)
Variable show : num -> string.

(** One round of the [switch] in [updateElementProperties]; the value is
    a number, so the default case always assigns. *)
Definition updateElementProperty (value : num) (property : string) : assignment :=
  if String.eqb property "transform" then
    ("transform", "translateY(" ++ show value ++ "px)")%string
  else if String.eqb property "opacity" then
    ("opacity"%string, show value)
  else if String.eqb property "scale" then
    ("transform", "scale(" ++ show value ++ ")")%string
  else
    (property, show value ++ "px")%string.

Definition updateElementProperties (this : instance) (value : num)
  : list assignment :=
  map (updateElementProperty value) (properties this).

(** [`cubic-bezier(${x1}, ${y1}, ${x2}, ${y2})`]; [generateBezierPoints]
    always returns four numbers. *)
Definition bezierCurve (this : instance) : string :=
  match generateBezierPoints (spring this) with
  | [x1; y1; x2; y2] =>
      ("cubic-bezier(" ++ show x1 ++ ", " ++ show y1 ++ ", "
         ++ show x2 ++ ", " ++ show y2 ++ ")")%string
  | _ => EmptyString
  end.

(** [applyBezierAnimation(element, property, startValue, endValue)] with
    numbers for the two values. *)
Definition applyBezierAnimation (this : instance) (property : string)
    (startValue endValue : num) : list assignment :=
  let transition :=
    (property ++ " " ++ show (duration (spring this)) ++ "s "
       ++ bezierCurve this)%string in
  [ ("transition"%string, transition);
    if String.eqb property "transform" then
      ("transform", "translateY(" ++ show endValue ++ "px)")%string
    else if String.eqb property "scale" then
      ("transform", "scale(" ++ show endValue ++ ")")%string
    else
      (property, show endValue ++ "px")%string ].

Definition elapsed_at (startTime currentTime : num) : num :=
  ((currentTime - startTime) / 1000)%js.

Definition currentValue (this : instance) (startValue endValue : num)
    (elapsed : num) : num :=
  let totalDistance := (endValue - startValue)%js in
  let springProgress := calculateSpringValue (spring this) elapsed in
  (startValue + totalDistance * springProgress)%js.

(** The callback [tick], run on the time stamps of the coming frames: it
    asks for a next frame only on the path that does not return early. *)
Fixpoint tick (this : instance) (startValue endValue startTime : num)
    (frames : list num) : list assignment :=
  match frames with
  | [] => []
  | currentTime :: later =>
      let elapsed := elapsed_at startTime currentTime in
      if (elapsed >=? duration (spring this) * 1.5)%js then
        updateElementProperties this endValue
      else
        updateElementProperties this (currentValue this startValue endValue elapsed)
          ++ tick this startValue endValue startTime later
  end.

Definition animate (this : instance) (startValue endValue startTime : num)
    (frames : list num) : list assignment :=
  if useBezier this then
    flat_map (fun property => applyBezierAnimation this property startValue endValue)
      (properties this)
  else tick this startValue endValue startTime frames.

End Writes.

(** The values that the frames hand to [updateElementProperties]. *)
Fixpoint frameValues (this : instance) (startValue endValue startTime : num)
    (frames : list num) : list num :=
  match frames with
  | [] => []
  | currentTime :: later =>
      let elapsed := elapsed_at startTime currentTime in
      if (elapsed >=? duration (spring this) * 1.5)%js then [endValue]
      else currentValue this startValue endValue elapsed
             :: frameValues this startValue endValue startTime later
  end.

End Animation.

(** ** springs.js: the two equations *)

Module SpringsJsMotion.

Definition springEquation1 (A B a c t : num) : num :=
  ((A * Math_exp (a * t) + B * Math_exp (- a * t)) * Math_exp (- c * t))%js.

Definition springEquation2 (A B c t : num) : num :=
  ((A * t + B) * Math_exp (- c * t))%js.

Definition calculateSpringValue (this : Spring) (A B a c t : num) : num :=
  if (bounce this >? 0)%js then springEquation1 A B a c t
  else springEquation2 A B c t.

End SpringsJsMotion.

(** ** springs.js: reading a configuration from text

    [parseFloat] is an input of the model; on a missing value
    ([undefined], [null]) it yields [NaN]. *)

Module SpringsJsParse.

Import JSString.

Record shorthand : Type := mkShorthand {
  sh_duration : num;
  sh_bounce : num;
  sh_mass : num;
  sh_properties : list string
}.

(** [let [key, value] = param.split(':').map(item => item.trim())]. *)
Definition key_value (param : string) : string * option string :=
  match map trim (split ":" param) with
  | key :: value :: _ => (key, Some value)
  | [key] => (key, None)
  | [] => (EmptyString, None)
  end.

(** The reducer: [if (key && value) acc[key] = value].  An assignment of
    a string to [__proto__] leaves the object as it is. *)
Definition collect (acc : gmap string string) (param : string)
  : gmap string string :=
  match key_value param with
  | (key, Some value) =>
      if nonempty key && nonempty value then
        if String.eqb key "__proto__" then acc else <[key := value]> acc
      else acc
  | (_, None) => acc
  end.

Section Parse.

Variable parseFloat : string -> num.

Definition parseFloat_of (v : option string) : num :=
  match v with
  | Some s => parseFloat s
  | None => NaN
  end.

Definition parseShorthand (springShorthand : string) : shorthand :=
  let params := foldl collect ∅ (split "," springShorthand) in
  {| sh_duration := or_default (Some (parseFloat_of (params !! "duration"%string))) 0.5;
     sh_bounce := or_default (Some (parseFloat_of (params !! "bounce"%string))) 0.2;
     sh_mass := or_default (Some (parseFloat_of (params !! "mass"%string))) 1;
     sh_properties :=
       match params !! "properties"%string with
       | Some text => map trim (split "," text)
       | None => ["transform"%string]
       end |}.

(** [fromAttributes(element)]: the element is the map of its attributes;
    the result is the model and its [properties]. *)
Definition fromAttributes (attributes : gmap string string)
  : Spring * list string :=
  let duration :=
    or_default (Some (parseFloat_of (attributes !! "data-spring-duration"%string))) 0.5 in
  let bounce :=
    or_default (Some (parseFloat_of (attributes !! "data-spring-bounce"%string))) 0.2 in
  let mass :=
    or_default (Some (parseFloat_of (attributes !! "data-spring-mass"%string))) 1 in
  let properties :=
    match attributes !! "data-spring-properties"%string with
    | Some (String _ _ as propertiesAttr) => map trim (split "," propertiesAttr)
    | _ => ["transform"%string]
    end in
  (SpringsJs.constructor
     {[ "duration"%string := duration; "bounce"%string := bounce;
        "mass"%string := mass ]} None,
   properties).

End Parse.

End SpringsJsParse.

(** ** Reading a configuration from the [data-spring] attribute

    [isNaN] (on text) and [parseFloat] are inputs of the model.  A value
    of the parsed object is a number, a text that [isNaN] holds to be no
    number, a boolean, a list of names, or [undefined]. *)

Module DataAttribute.

Import JSString.

Inductive param : Type :=
| PNumber (n : num)
| PString (s : string)
| PBoolean (b : bool)
| PArray (names : list string)
| PUndefined.

(** [params[key] = value]; an assignment of a value that is no object to
    [__proto__] leaves the object as it is. *)
Definition store (params : gmap string param) (key : string) (value : param)
  : gmap string param :=
  if String.eqb key "__proto__" then params else <[key := value]> params.

(** What [fromElement] returns: [null], the outcome of [new Spring(config)],
    or a configuration that holds something other than a number under one
    of the numeric keys, which the constructor stores as it is and the
    numeric model does not follow. *)
Inductive built : Type :=
| Null
| New (r : result Animation.instance)
| NotNumeric.

Section Parse.

Variable isNaN : string -> bool.
Variable parseFloat : string -> num.

(** The body of the [forEach]: [value.split] and [value.toLowerCase]
    throw a TypeError when the entry has no colon. *)
Definition readPair (params : gmap string param) (entry : string)
  : result (gmap string param) :=
  let (key, value) := SpringsJsParse.key_value entry in
  if String.eqb key "properties" then
    match value with
    | Some text => Ok (store params key (PArray (split " " text)))
    | None => Throw "TypeError"
    end
  else if String.eqb key "bezierAnimation" then
    match value with
    | Some text =>
        Ok (store params key
              (PBoolean (String.eqb (SpringsJs.toLowerCase text) "true")))
    | None => Throw "TypeError"
    end
  else
    match value with
    | Some text =>
        if isNaN text then Ok (store params key (PString text))
        else Ok (store params key (PNumber (parseFloat text)))
    | None => Ok (store params key PUndefined)
    end.

Fixpoint readPairs (params : gmap string param) (pairs : list string)
  : result (gmap string param) :=
  match pairs with
  | [] => Ok params
  | entry :: later =>
      match readPair params entry with
      | Ok params' => readPairs params' later
      | Throw message => Throw message
      end
  end.

(** [parseDataAttribute(element)], on the value of [element.dataset.spring]. *)
Definition parseDataAttribute (springData : option string)
  : result (option (gmap string param)) :=
  match springData with
  | Some (String _ _ as text) =>
      match readPairs ∅ (split "," text) with
      | Ok params => Ok (Some params)
      | Throw message => Throw message
      end
  | _ => Ok None
  end.

(** The numeric properties of a parsed object, as the constructor reads
    them; [undefined] reads as [NaN]. *)
Definition numeric (p : param) : option num :=
  match p with
  | PNumber n => Some n
  | PUndefined => Some NaN
  | _ => None
  end.

Definition numeric_keys : list string :=
  [ "mass"; "stiffness"; "damping"; "duration"; "bounce" ]%string.

Definition not_numeric_under (params : gmap string param) (key : string) : bool :=
  match params !! key with
  | Some (PNumber _) | Some PUndefined | None => false
  | Some _ => true
  end.

(** [new Spring(config)] on a parsed object: the model, and
    [properties] and [useBezier] as the last lines of the constructor set
    them. *)
Definition newSpring (params : gmap string param) : built :=
  if existsb (not_numeric_under params) numeric_keys then NotNumeric
  else
    New match constructor (CfgObject (omap numeric params)) with
        | Ok m =>
            Ok {| Animation.spring := m;
                  Animation.properties :=
                    match params !! "properties"%string with
                    | Some (PArray names) => names
                    | _ => ["transform"%string]
                    end;
                  Animation.useBezier :=
                    match params !! "bezierAnimation"%string with
                    | Some (PBoolean b) => b
                    | _ => false
                    end |}
        | Throw message => Throw message
        end.

(** [fromElement(element)]. *)
Definition fromElement (springData : option string) : result built :=
  match parseDataAttribute springData with
  | Ok (Some config) => Ok (newSpring config)
  | Ok None => Ok Null
  | Throw message => Throw message
  end.

End Parse.

End DataAttribute.

(** ** Arithmetic on finite numbers *)

Section NumFacts.

Implicit Types (a b r : R) (x y : num).

Lemma add_Fin a b : (Fin a + Fin b)%js = Fin (a + b).
Proof. reflexivity. Qed.

Lemma sub_Fin a b : (Fin a - Fin b)%js = Fin (a - b).
Proof. reflexivity. Qed.

Lemma mul_Fin a b : (Fin a * Fin b)%js = Fin (a * b).
Proof. reflexivity. Qed.

Lemma neg_Fin a : (- Fin a)%js = Fin (- a).
Proof. reflexivity. Qed.

Lemma div_Fin a b : b <> 0 -> (Fin a / Fin b)%js = Fin (a / b).
Proof. intros Hb. unfold div. destruct (Req_dec_T b 0); [contradiction | reflexivity]. Qed.

Lemma div_Fin_zero_pos a : 0 < a -> (Fin a / Fin 0)%js = PInf.
Proof.
  intros Ha. unfold div, mul_inf.
  destruct (Req_dec_T 0 0) as [_ | H]; [| now elim H].
  destruct (Rlt_dec 0 a); [reflexivity | contradiction].
Qed.

Lemma sqrt_Fin r : 0 <= r -> Math_sqrt (Fin r) = Fin (sqrt r).
Proof. intros Hr. unfold Math_sqrt. destruct (Rlt_dec r 0); [lra | reflexivity]. Qed.

Lemma sqrt_negative r : r < 0 -> Math_sqrt (Fin r) = NaN.
Proof. intros Hr. unfold Math_sqrt. destruct (Rlt_dec r 0); [reflexivity | lra]. Qed.

Lemma le_Fin_true a b : a <= b -> (Fin a <=? Fin b)%js = true.
Proof. intros H. unfold le. destruct (Rle_dec a b); [reflexivity | contradiction]. Qed.

Lemma le_Fin_false a b : b < a -> (Fin a <=? Fin b)%js = false.
Proof. intros H. unfold le. destruct (Rle_dec a b); [lra | reflexivity]. Qed.

Lemma lt_Fin_true a b : a < b -> (Fin a <? Fin b)%js = true.
Proof. intros H. unfold lt. destruct (Rlt_dec a b); [reflexivity | contradiction]. Qed.

Lemma lt_Fin_false a b : b <= a -> (Fin a <? Fin b)%js = false.
Proof. intros H. unfold lt. destruct (Rlt_dec a b); [lra | reflexivity]. Qed.

Lemma truthy_Fin r : r <> 0 -> truthy (Fin r) = true.
Proof. intros H. unfold truthy. destruct (Req_dec_T r 0); [contradiction | reflexivity]. Qed.

Lemma truthy_zero : truthy (Fin 0) = false.
Proof. unfold truthy. destruct (Req_dec_T 0 0) as [_ | H]; [reflexivity | now elim H]. Qed.

(** [NaN] is absorbing. *)
Lemma add_NaN_l y : (NaN + y)%js = NaN.
Proof. now destruct y. Qed.

Lemma add_NaN_r x : (x + NaN)%js = NaN.
Proof. now destruct x. Qed.

Lemma sub_NaN_r x : (x - NaN)%js = NaN.
Proof. now destruct x. Qed.

Lemma mul_NaN_l y : (NaN * y)%js = NaN.
Proof. now destruct y. Qed.

Lemma mul_NaN_r x : (x * NaN)%js = NaN.
Proof. now destruct x. Qed.

Lemma div_NaN_l y : (NaN / y)%js = NaN.
Proof. now destruct y. Qed.

Lemma div_NaN_r x : (x / NaN)%js = NaN.
Proof. now destruct x. Qed.

(** The unary minus moves out of a product, also at the special values. *)
Lemma mul_inf_neg p y : mul_inf p (- y)%js = mul_inf (negb p) y.
Proof.
  destruct y as [r | | |]; simpl; try reflexivity.
  - destruct (Rlt_dec 0 (- r)), (Rlt_dec (- r) 0), (Rlt_dec 0 r), (Rlt_dec r 0);
      try lra; try reflexivity; now destruct p.
  - now destruct p.
Qed.

Lemma mul_inf_negb p y : mul_inf (negb p) y = (- mul_inf p y)%js.
Proof.
  destruct y as [r | | |]; simpl; try reflexivity; try now destruct p.
  destruct (Rlt_dec 0 r), (Rlt_dec r 0); try reflexivity; now destruct p.
Qed.

Lemma neg_mul_l x y : (- x * y)%js = (- (x * y))%js.
Proof.
  destruct x as [a | | |], y as [b | | |]; try reflexivity.
  - simpl. f_equal. lra.
  - change ((- Fin a * PInf)%js) with (mul_inf true (- Fin a)%js).
    change ((Fin a * PInf)%js) with (mul_inf true (Fin a)).
    now rewrite mul_inf_neg, mul_inf_negb.
  - change ((- Fin a * NInf)%js) with (mul_inf false (- Fin a)%js).
    change ((Fin a * NInf)%js) with (mul_inf false (Fin a)).
    now rewrite mul_inf_neg, mul_inf_negb.
  - change ((- PInf * Fin b)%js) with (mul_inf false (Fin b)).
    change ((PInf * Fin b)%js) with (mul_inf true (Fin b)).
    apply (mul_inf_negb true).
  - change ((- NInf * Fin b)%js) with (mul_inf true (Fin b)).
    change ((NInf * Fin b)%js) with (mul_inf false (Fin b)).
    now rewrite <- (mul_inf_negb false).
Qed.

Lemma mul_1_r x : (x * Fin 1)%js = x.
Proof.
  destruct x as [a | | |]; try reflexivity.
  - simpl. f_equal. lra.
  - simpl. destruct (Rlt_dec 0 1); [reflexivity | lra].
  - simpl. destruct (Rlt_dec 0 1); [reflexivity | lra].
Qed.

Lemma Math_pow_2 x : Math_pow x 2 = (x * x)%js.
Proof. simpl. now rewrite mul_1_r. Qed.

End NumFacts.

(** Evaluate the arithmetic of finite numbers, as far as the side
    conditions are linear. *)
Ltac js_arith :=
  repeat first
    [ rewrite add_Fin | rewrite sub_Fin | rewrite mul_Fin | rewrite neg_Fin
    | rewrite Math_pow_2
    | rewrite div_Fin by lra
    | rewrite sqrt_Fin by lra
    | progress cbn [Math_exp Math_cos Math_abs] ].

(** ** C1: the evaluation rule *)

Section Evaluation.

Lemma le_zero_not_positive (x : num) :
  (x <=? 0)%js = true -> (x >? 0)%js = false.
Proof.
  destruct x as [r | | |]; cbn; try discriminate; try reflexivity.
  destruct (Rle_dec r 0), (Rlt_dec 0 r); try reflexivity; try discriminate; lra.
Qed.

(** Whatever the model holds, the code computes the rule of the
    specification. *)
Lemma calculateSpringValue_evaluate (this : Spring) (t : num) :
  calculateSpringValue this t = Spec.evaluate this t.
Proof.
  unfold calculateSpringValue, Spec.evaluate, Spec.oscillatory, Spec.overdamped,
    Spec.normalized_time, Spec.natural_frequency, Spec.damping_ratio.
  destruct (bounce this >? 0)%js; now rewrite Math_pow_2, !neg_mul_l.
Qed.

(** C1. For every model and every elapsed time, [calculateSpringValue]
    first normalises the time, [t' = t / duration], and then selects the
    regime by the sign of [bounce]: when [bounce > 0] the result is
    [exp(-zeta*omega*t') * cos(omega*sqrt(1-zeta^2)*t')] with
    [omega = sqrt(stiffness/mass)] and
    [zeta = damping / (2*sqrt(mass*stiffness))]; when [bounce <= 0] it is
    [(exp(-a*t') + exp(-b*t')) / 2] with
    [a, b = damping +/- sqrt(damping^2 - 4*stiffness)]. *)
Theorem calculateSpringValue_regimes (this : Spring) (t : num) :
  let t' := (t / duration this)%js in
  let omega := Math_sqrt (stiffness this / mass this) in
  let zeta := (damping this / (2 * Math_sqrt (mass this * stiffness this)))%js in
  let root := Math_sqrt (Math_pow (damping this) 2 - 4 * stiffness this)%js in
  let a := (damping this + root)%js in
  let b := (damping this - root)%js in
  ((bounce this >? 0)%js = true ->
   calculateSpringValue this t
   = (Math_exp (- (zeta * omega * t'))
      * Math_cos (omega * Math_sqrt (1 - Math_pow zeta 2) * t'))%js)
  /\ ((bounce this <=? 0)%js = true ->
      calculateSpringValue this t
      = ((Math_exp (- (a * t')) + Math_exp (- (b * t'))) / 2)%js).
Proof.
  intros t' omega zeta root a b.
  rewrite calculateSpringValue_evaluate. unfold Spec.evaluate.
  split.
  - intros ->. reflexivity.
  - intros H. rewrite (le_zero_not_positive _ H). reflexivity.
Qed.

Lemma calculateSpringValue_regimes_witness :
  calculateSpringValue (mkSpring 1 4 0 2 0.5) 0 = Fin 1
  /\ calculateSpringValue (mkSpring 1 4 5 2 0) 0 = Fin 1.
Proof.
  assert (H4 : sqrt (1 * 4) = 2).
  { replace (1 * 4) with (2 * 2) by lra. apply sqrt_square. lra. }
  split.
  - rewrite (proj1 (calculateSpringValue_regimes (mkSpring 1 4 0 2 0.5) 0))
      by (apply lt_Fin_true; lra).
    cbn [mass stiffness damping duration bounce].
    rewrite mul_Fin, sqrt_Fin, H4 by lra.
    js_arith. f_equal.
    match goal with
    | |- exp ?x * cos ?y = 1 =>
        replace x with 0 by lra; replace y with 0 by lra
    end.
    rewrite exp_0, cos_0. lra.
  - rewrite (proj2 (calculateSpringValue_regimes (mkSpring 1 4 5 2 0) 0))
      by (apply le_Fin_true; lra).
    cbn [mass stiffness damping duration bounce].
    js_arith. f_equal.
    match goal with
    | |- (exp ?x + exp ?y) / 2 = 1 =>
        replace x with 0 by lra; replace y with 0 by lra
    end.
    rewrite exp_0. lra.
Defined.

(** Closed forms of the two regimes over the reals, and the case in which
    the non-oscillatory branch takes the square root of a negative
    number. *)

Lemma sqrt_mass_stiffness_pos (m s : R) : 0 < m -> 0 < s -> 0 < sqrt (m * s).
Proof. intros Hm Hs. apply sqrt_lt_R0. nra. Qed.

Lemma calculateSpringValue_oscillatory (m s d du b t : R) :
  0 < b -> du <> 0 -> 0 < m -> 0 < s ->
  let omega := sqrt (s / m) in
  let zeta := d / (2 * sqrt (m * s)) in
  zeta * zeta <= 1 ->
  calculateSpringValue (mkSpring m s d du b) t
  = Fin (exp (- zeta * omega * (t / du))
         * cos (omega * sqrt (1 - zeta * zeta) * (t / du))).
Proof.
  intros Hb Hdu Hm Hs omega zeta Hz.
  pose proof (sqrt_mass_stiffness_pos m s Hm Hs) as Hms.
  assert (0 <= s / m) by (apply Rlt_le, Rdiv_lt_0_compat; assumption).
  unfold calculateSpringValue; cbn [bounce duration stiffness mass damping].
  rewrite lt_Fin_true by assumption.
  rewrite (div_Fin t du) by assumption.
  rewrite (div_Fin s m) by lra.
  rewrite sqrt_Fin by assumption.
  rewrite mul_Fin, sqrt_Fin by nra.
  rewrite mul_Fin, div_Fin by lra.
  fold zeta omega.
  rewrite neg_Fin, !mul_Fin, sub_Fin, sqrt_Fin by lra.
  reflexivity.
Qed.

Lemma calculateSpringValue_real_roots (m : num) (s d du b t : R) :
  b <= 0 -> du <> 0 -> 4 * s <= d * d ->
  let root := sqrt (d * d - 4 * s) in
  calculateSpringValue (mkSpring m s d du b) t
  = Fin ((exp (- (d + root) * (t / du)) + exp (- (d - root) * (t / du))) / 2).
Proof.
  intros Hb Hdu Hroots root.
  unfold calculateSpringValue; cbn [bounce duration stiffness mass damping].
  rewrite lt_Fin_false by assumption.
  rewrite (div_Fin t du) by assumption.
  rewrite !mul_Fin, sub_Fin, sqrt_Fin by lra.
  fold root.
  rewrite add_Fin, sub_Fin, !neg_Fin, !mul_Fin.
  cbn [Math_exp]. rewrite add_Fin, div_Fin by lra.
  reflexivity.
Qed.

Lemma calculateSpringValue_complex_roots (m du : num) (s d b : R) (t : num) :
  b <= 0 -> d * d < 4 * s ->
  calculateSpringValue (mkSpring m s d du b) t = NaN.
Proof.
  intros Hb Hroots.
  unfold calculateSpringValue; cbn [bounce duration stiffness mass damping].
  rewrite lt_Fin_false by assumption.
  rewrite !mul_Fin, sub_Fin, sqrt_negative by lra.
  rewrite ?add_NaN_r, ?sub_NaN_r.
  now destruct (t / du)%js.
Qed.



End Evaluation.

(** ** Real analysis behind the two regimes *)

Section Analysis.

(** A cosine under a growing exponential is unbounded: at the times
    [2*pi*n / w] the cosine is 1. *)
Lemma growing_oscillation_unbounded (c w : R) :
  0 < c -> 0 < w ->
  forall M : R, exists x : R, 0 <= x /\ M < exp (c * x) * cos (w * x).
Proof.
  intros Hc Hw M.
  pose proof PI_RGT_0 as Hpi.
  destruct (INR_unbounded (M * w / (c * (2 * PI)))) as [n Hn].
  assert (Hcpi : 0 < c * (2 * PI)) by nra.
  assert (HM : M * w < INR n * (c * (2 * PI))).
  { apply Rmult_lt_reg_r with (/ (c * (2 * PI))).
    - now apply Rinv_0_lt_compat.
    - replace (INR n * (c * (2 * PI)) * / (c * (2 * PI))) with (INR n)
        by (field; lra).
      exact Hn. }
  exists (2 * INR n * PI / w).
  assert (Hn0 : 0 <= INR n) by apply pos_INR.
  split.
  - apply Rmult_le_pos; [nra |]. apply Rlt_le, Rinv_0_lt_compat, Hw.
  - replace (w * (2 * INR n * PI / w)) with (0 + 2 * INR n * PI) by (field; lra).
    rewrite cos_period, cos_0, Rmult_1_r.
    apply Rlt_trans with (c * (2 * INR n * PI / w)).
    + apply Rmult_lt_reg_r with w; [assumption |].
      replace (c * (2 * INR n * PI / w) * w) with (INR n * (c * (2 * PI)))
        by (field; lra).
      exact HM.
    + pose proof (exp_ineq1_le (c * (2 * INR n * PI / w))). lra.
Qed.


(** With negative coefficients the same mean grows. *)
Lemma growing_mean_monotone (a b : R) :
  a < 0 -> b < 0 ->
  forall x y : R, x < y ->
    (exp (- a * x) + exp (- b * x)) / 2 < (exp (- a * y) + exp (- b * y)) / 2.
Proof.
  intros Ha Hb x y Hxy.
  assert (exp (- a * x) < exp (- a * y)) by (apply exp_increasing; nra).
  assert (exp (- b * x) < exp (- b * y)) by (apply exp_increasing; nra).
  lra.
Qed.

Lemma PI_bounds : 3.141 < PI < 3.143.
Proof.
  pose proof (PI_2_3_7_ineq 1) as H.
  unfold PI_2_3_7_tg, tg_alt, Ratan_seq in H. simpl in H.
  lra.
Qed.

Lemma sqrt_100 : sqrt 100 = 10.
Proof. replace 100 with (10 * 10) by lra. apply sqrt_square. lra. Qed.

End Analysis.

(** ** C2: the duration and bounce path *)

Section DurationBounce.

Lemma initFromDurationAndBounce_nonneg (d b : R) :
  d <> 0 -> 0 <= b ->
  initFromDurationAndBounce d b
  = mkSpring 1 (Fin ((2 * PI / d) ^ 2)) (Fin (1 - 4 * PI * b / d)) d b.
Proof.
  intros Hd Hb. unfold initFromDurationAndBounce, Math_PI.
  rewrite Math_pow_2, le_Fin_true by assumption.
  rewrite !mul_Fin, !div_Fin, sub_Fin, mul_Fin by assumption.
  do 2 f_equal. lra.
Qed.

Lemma initFromDurationAndBounce_neg (d b : R) :
  d <> 0 -> b < 0 ->
  initFromDurationAndBounce d b
  = mkSpring 1 (Fin ((2 * PI / d) ^ 2))
      (Fin (4 * PI) / Fin (d + 4 * PI * b))%js d b.
Proof.
  intros Hd Hb. unfold initFromDurationAndBounce, Math_PI.
  rewrite Math_pow_2, le_Fin_false by assumption.
  rewrite !mul_Fin, add_Fin, div_Fin, mul_Fin by assumption.
  do 2 f_equal. lra.
Qed.

(** Where [duration + 4*pi*bounce] vanishes the division yields
    [Infinity]. *)
Lemma initFromDurationAndBounce_infinite_damping :
  damping (initFromDurationAndBounce (Fin (4 * PI)) (Fin (- 1))) = PInf.
Proof.
  pose proof PI_RGT_0.
  rewrite initFromDurationAndBounce_neg by lra.
  cbn [damping].
  replace (4 * PI + 4 * PI * - 1) with 0 by lra.
  apply div_Fin_zero_pos. lra.
Qed.

Lemma or_default_Fin (b d : R) : or_default (Some (Fin b)) (Fin d) = Fin (if Req_dec_T b 0 then d else b).
Proof. unfold or_default, truthy. now destruct (Req_dec_T b 0). Qed.

Lemma or_default_zero (b : R) : or_default (Some (Fin b)) (Fin 0) = Fin b.
Proof. rewrite or_default_Fin. destruct (Req_dec_T b 0); congruence. Qed.

Lemma clamp_Fin (b : R) :
  Math_max (- (1))%js (Math_min 1 (Fin b)) = Fin (Spec.clamp b).
Proof.
  change (- Fin 1)%js with (Fin (- (1))).
  replace (- (1)) with (-1) by lra.
  unfold Spec.clamp, Rmax, Rmin, Math_max, Math_min, le.
  destruct (Rle_dec 1 b).
  - destruct (Rle_dec (-1) 1); reflexivity.
  - destruct (Rle_dec (-1) b); reflexivity.
Qed.

Lemma clamp_bounds (b : R) : -1 <= Spec.clamp b <= 1.
Proof.
  unfold Spec.clamp, Rmax, Rmin.
  destruct (Rle_dec 1 b).
  - destruct (Rle_dec (-1) 1); lra.
  - destruct (Rle_dec (-1) b); lra.
Qed.

(** The clamp of the constructor yields a finite number in [[-1, 1]]
    whatever the [bounce] property holds. *)
Lemma clamp_or_default_range (v : option num) :
  exists c : R,
    Math_max (- (1))%js (Math_min 1 (or_default v 0)) = Fin c /\ -1 <= c <= 1.
Proof.
  assert (Hzero : exists c : R,
    Math_max (- (1))%js (Math_min 1 (Fin 0)) = Fin c /\ -1 <= c <= 1).
  { exists (Spec.clamp 0). split; [apply clamp_Fin | apply clamp_bounds]. }
  destruct v as [[r | | |] |]; cbn [or_default truthy]; try exact Hzero.
  - destruct (Req_dec_T r 0); [exact Hzero |].
    exists (Spec.clamp r). split; [apply clamp_Fin | apply clamp_bounds].
  - exists 1. split; [| lra].
    unfold Math_max, Math_min, le, neg. destruct (Rle_dec (- (1)) 1); [reflexivity | lra].
  - exists (- (1)). split; [| lra]. reflexivity.
Qed.

(** The constructor takes the third branch as soon as one of the three
    physical keys is missing. *)
Lemma constructor_default_path (o : gmap string num) :
  ~ (is_Some (o !! "mass"%string) /\ is_Some (o !! "stiffness"%string)
     /\ is_Some (o !! "damping"%string)) ->
  constructor (CfgObject o)
  = Ok (initFromDurationAndBounce
          (or_default (o !! "duration"%string) 0.5)
          (Math_max (- (1))%js (Math_min 1 (or_default (o !! "bounce"%string) 0)))).
Proof.
  intros Hmiss. unfold constructor.
  destruct (o !! "mass"%string) as [m |]; [| reflexivity].
  destruct (o !! "stiffness"%string) as [s |]; [| reflexivity].
  destruct (o !! "damping"%string) as [d |]; [| reflexivity].
  exfalso. apply Hmiss. eauto.
Qed.

(** C2. On the duration and bounce path, with a duration [d > 0]
    (0.5 when the configuration has none) and a bounce [b] (0 when it has
    none) clamped to [c] in [[-1, 1]], the resolved model has mass 1,
    stiffness [(2*pi/d)^2] and damping [1 - 4*pi*c/d] when [c >= 0],
    [4*pi / (d + 4*pi*c)] when [c < 0]. *)
Theorem duration_bounce_path (o : gmap string num) (dopt bopt : option R) :
  ~ (is_Some (o !! "mass"%string) /\ is_Some (o !! "stiffness"%string)
     /\ is_Some (o !! "damping"%string)) ->
  o !! "duration"%string = Fin <$> dopt ->
  o !! "bounce"%string = Fin <$> bopt ->
  let d := default 0.5 dopt in
  let c := Spec.clamp (default 0 bopt) in
  0 < d ->
  exists m : Spring,
    constructor (CfgObject o) = Ok m
    /\ -1 <= c <= 1
    /\ duration m = Fin d
    /\ bounce m = Fin c
    /\ mass m = Fin 1
    /\ stiffness m = Fin ((2 * PI / d) ^ 2)
    /\ (0 <= c -> damping m = Fin (1 - 4 * PI * c / d))
    /\ (c < 0 -> damping m = (Fin (4 * PI) / Fin (d + 4 * PI * c))%js)
    /\ (c < 0 -> d + 4 * PI * c <> 0 ->
        damping m = Fin (4 * PI / (d + 4 * PI * c))).
Proof.
  intros Hmiss Hdur Hbounce d c Hd.
  rewrite (constructor_default_path o Hmiss), Hdur, Hbounce.
  assert (Hd' : or_default (Fin <$> dopt) 0.5 = Fin d).
  { subst d. destruct dopt as [d' |]; [| reflexivity].
    change (Fin <$> Some d') with (Some (Fin d')).
    change (default 0.5 (Some d')) with d' in *.
    rewrite or_default_Fin. destruct (Req_dec_T d' 0); [lra | reflexivity]. }
  assert (Hb' : or_default (Fin <$> bopt) 0 = Fin (default 0 bopt)).
  { destruct bopt as [b |]; [apply or_default_zero | reflexivity]. }
  rewrite Hd', Hb', clamp_Fin. fold c.
  eexists; split; [reflexivity |].
  split; [apply clamp_bounds |].
  destruct (Rle_dec 0 c) as [Hc | Hc].
  - rewrite initFromDurationAndBounce_nonneg by lra.
    cbn. repeat split; try reflexivity; intros; lra.
  - rewrite initFromDurationAndBounce_neg by lra.
    cbn [duration bounce mass stiffness damping].
    repeat split; try reflexivity; try (intros; lra).
    intros _ Hden. now rewrite div_Fin.
Qed.

Lemma duration_bounce_path_witness :
  exists m : Spring,
    constructor (CfgObject {[ "duration"%string := Fin 0.5;
                              "bounce"%string := Fin 0.3 ]}) = Ok m
    /\ duration m = Fin 0.5
    /\ bounce m = Fin (Spec.clamp 0.3)
    /\ mass m = Fin 1
    /\ stiffness m = Fin ((2 * PI / 0.5) ^ 2).
Proof.
  destruct (duration_bounce_path
              {[ "duration"%string := Fin 0.5; "bounce"%string := Fin 0.3 ]}
              (Some 0.5) (Some 0.3))
    as (m & Hm & _ & Hdur & Hbounce & Hmass & Hstiff & _).
  - intros ([x Hx] & _). vm_compute in Hx. discriminate.
  - reflexivity.
  - reflexivity.
  - cbn. lra.
  - exists m. auto.
Defined.

End DurationBounce.

(** ** The duration and bounce path in the evaluator *)

Section DurationBounceEvaluated.

(** For a model built from [(d, b)] with [d > 0] and [b > 0], the natural
    frequency is [2*pi/d] and the damping ratio is [d/(4*pi) - b]. *)
Lemma calculateSpringValue_bouncy_path (d b t : R) :
  0 < d -> 0 < b ->
  let omega := 2 * PI / d in
  let zeta := d / (4 * PI) - b in
  zeta * zeta <= 1 ->
  calculateSpringValue (initFromDurationAndBounce d b) t
  = Fin (exp (- zeta * omega * (t / d))
         * cos (omega * sqrt (1 - zeta * zeta) * (t / d))).
Proof.
  intros Hd Hb omega zeta Hz.
  pose proof PI_RGT_0 as Hpi.
  assert (Hk : 0 < omega) by (apply Rdiv_lt_0_compat; lra).
  assert (Hsq : sqrt (omega ^ 2) = omega) by (apply sqrt_pow2; lra).
  rewrite initFromDurationAndBounce_nonneg by lra.
  fold omega.
  assert (Homega : sqrt (omega ^ 2 / 1) = omega).
  { replace (omega ^ 2 / 1) with (omega ^ 2) by lra. exact Hsq. }
  assert (Hzeta : (1 - 4 * PI * b / d) / (2 * sqrt (1 * omega ^ 2)) = zeta).
  { replace (1 * omega ^ 2) with (omega ^ 2) by lra. rewrite Hsq.
    unfold zeta, omega. field. lra. }
  rewrite calculateSpringValue_oscillatory;
    rewrite ?Homega, ?Hzeta; try lra; try (apply pow_lt; lra).
  reflexivity.
Qed.

(** When moreover [d < 4*pi*b] the damping is negative and the value is
    unbounded over [t >= 0]. *)
Lemma negative_damping_diverges (d b : R) :
  0 < d -> 0 < b -> d < 4 * PI * b -> b - d / (4 * PI) < 1 ->
  forall M : R, exists t v : R,
    0 <= t
    /\ calculateSpringValue (initFromDurationAndBounce d b) t = Fin v
    /\ M < v.
Proof.
  intros Hd Hb Hneg Hlt M.
  pose proof PI_RGT_0 as Hpi.
  set (omega := 2 * PI / d).
  set (zeta := d / (4 * PI) - b).
  assert (Hk : 0 < omega) by (apply Rdiv_lt_0_compat; lra).
  assert (Hz1 : zeta < 0).
  { unfold zeta. apply Rmult_lt_reg_r with (4 * PI); [lra |].
    replace ((d / (4 * PI) - b) * (4 * PI)) with (d - 4 * PI * b) by (field; lra).
    lra. }
  assert (Hz2 : -1 < zeta) by (unfold zeta; lra).
  assert (Hzz : zeta * zeta < 1) by nra.
  assert (Hw : 0 < omega * sqrt (1 - zeta * zeta)).
  { apply Rmult_lt_0_compat; [assumption |]. apply sqrt_lt_R0. lra. }
  assert (Hc : 0 < - zeta * omega) by nra.
  destruct (growing_oscillation_unbounded _ _ Hc Hw M) as (x & Hx & HM).
  exists (x * d), (exp (- zeta * omega * x) * cos (omega * sqrt (1 - zeta * zeta) * x)).
  split; [nra |]. split; [| exact HM].
  rewrite calculateSpringValue_bouncy_path by (fold zeta; lra).
  fold omega zeta.
  replace (x * d / d) with x by (field; lra).
  reflexivity.
Qed.

(** On the duration and bounce path with [bounce = 0] the discriminant
    [damping^2 - 4*stiffness] is [1 - 4*(2*pi/d)^2], negative for every
    duration below [4*pi] seconds. *)
Lemma zero_bounce_is_NaN (d : R) (t : num) :
  0 < d < 4 * PI ->
  calculateSpringValue (initFromDurationAndBounce d 0) t = NaN.
Proof.
  intros [Hd Hlt].
  pose proof PI_RGT_0 as Hpi.
  rewrite initFromDurationAndBounce_nonneg by lra.
  apply calculateSpringValue_complex_roots; [lra |].
  replace (1 - 4 * PI * 0 / d) with 1 by (field; lra).
  assert (Hk : 1 / 2 < 2 * PI / d).
  { apply Rmult_lt_reg_r with d; [assumption |].
    replace (2 * PI / d * d) with (2 * PI) by (field; lra). lra. }
  nra.
Qed.

(** With [bounce < 0] the discriminant is negative as soon as
    [bounce < - d / (2*pi)]. *)
Lemma negative_bounce_is_NaN (d b : R) (t : num) :
  0 < d -> d + 4 * PI * b < - d ->
  calculateSpringValue (initFromDurationAndBounce d b) t = NaN.
Proof.
  intros Hd Hden.
  pose proof PI_RGT_0 as Hpi.
  assert (Hb : b < 0) by nra.
  rewrite initFromDurationAndBounce_neg by lra.
  rewrite div_Fin by lra.
  apply calculateSpringValue_complex_roots; [lra |].
  set (den := d + 4 * PI * b) in *.
  assert (Hinv : 0 < / - den < / d).
  { split; [apply Rinv_0_lt_compat; lra |].
    apply Rinv_lt_contravar; [nra | lra]. }
  replace (4 * PI / den) with (- (4 * PI) * / - den) by (field; lra).
  replace ((2 * PI / d) ^ 2) with ((2 * PI) * / d * ((2 * PI) * / d)) by (field; lra).
  assert (Hd' : 0 < / d) by (apply Rinv_0_lt_compat; lra).
  assert (Hsq : / - den * / - den < / d * / d) by nra.
  assert (Hpp : 0 < PI * PI) by nra.
  replace (- (4 * PI) * / - den * (- (4 * PI) * / - den))
    with (16 * (PI * PI) * (/ - den * / - den)) by ring.
  replace (4 * (2 * PI * / d * (2 * PI * / d)))
    with (16 * (PI * PI) * (/ d * / d)) by ring.
  apply Rmult_lt_compat_l; [lra | exact Hsq].
Qed.

(** A negative bounce just below zero, [- d/(2*pi) <= b < - d/(4*pi)],
    has real roots but a negative damping: the value grows with time. *)
Lemma negative_bounce_grows :
  let m := initFromDurationAndBounce (Fin (2 * PI)) (Fin (- (3 / 4))) in
  forall t1 t2 : R, 0 <= t1 < t2 ->
    exists v1 v2 : R,
      calculateSpringValue m t1 = Fin v1
      /\ calculateSpringValue m t2 = Fin v2
      /\ v1 < v2.
Proof.
  intros m t1 t2 [H1 H12]. subst m.
  pose proof PI_RGT_0 as Hpi.
  rewrite initFromDurationAndBounce_neg by lra.
  replace (2 * PI + 4 * PI * - (3 / 4)) with (- PI) by lra.
  rewrite div_Fin by lra.
  replace (4 * PI / - PI) with (- 4) by (field; lra).
  replace ((2 * PI / (2 * PI)) ^ 2) with 1 by (field; lra).
  assert (Hroot : 0 <= sqrt (-4 * -4 - 4 * 1) < 4).
  { split; [apply sqrt_pos |].
    assert (Hlt : sqrt (-4 * -4 - 4 * 1) < sqrt (4 * 4)) by (apply sqrt_lt_1; lra).
    rewrite sqrt_square in Hlt by lra. exact Hlt. }
  rewrite !calculateSpringValue_real_roots by lra.
  do 2 eexists. split; [reflexivity |]. split; [reflexivity |].
  apply growing_mean_monotone; try lra.
  apply Rmult_lt_reg_r with (2 * PI); [lra |].
  replace (t1 / (2 * PI) * (2 * PI)) with t1 by (field; lra).
  replace (t2 / (2 * PI) * (2 * PI)) with t2 by (field; lra).
  exact H12.
Qed.

(** In the oscillatory regime of the duration and bounce path the value
    changes sign again and again: it is positive at time 0, negative half
    a period later and positive after a full period. *)
Lemma oscillatory_crosses_twice (d b : R) :
  0 < d -> 0 < b ->
  (d / (4 * PI) - b) * (d / (4 * PI) - b) < 1 ->
  exists t1 t2 t3 v1 v2 v3 : R,
    0 <= t1 < t2 /\ t2 < t3
    /\ calculateSpringValue (initFromDurationAndBounce d b) t1 = Fin v1
    /\ calculateSpringValue (initFromDurationAndBounce d b) t2 = Fin v2
    /\ calculateSpringValue (initFromDurationAndBounce d b) t3 = Fin v3
    /\ 0 < v1 /\ v2 < 0 /\ 0 < v3.
Proof.
  intros Hd Hb Hz.
  pose proof PI_RGT_0 as Hpi.
  set (zeta := d / (4 * PI) - b) in *.
  set (omega := 2 * PI / d).
  assert (Hk : 0 < omega) by (apply Rdiv_lt_0_compat; lra).
  set (w := omega * sqrt (1 - zeta * zeta)).
  assert (Hw : 0 < w).
  { apply Rmult_lt_0_compat; [assumption |]. apply sqrt_lt_R0. lra. }
  assert (Hinv : 0 < / w) by (now apply Rinv_0_lt_compat).
  exists 0, (PI / w * d), (2 * PI / w * d).
  exists (exp (- zeta * omega * 0) * cos (w * 0)),
         (exp (- zeta * omega * (PI / w)) * cos (w * (PI / w))),
         (exp (- zeta * omega * (2 * PI / w)) * cos (w * (2 * PI / w))).
  assert (H1 : 0 < PI / w * d).
  { apply Rmult_lt_0_compat; [apply Rdiv_lt_0_compat |]; lra. }
  assert (H2 : PI / w * d < 2 * PI / w * d).
  { apply Rmult_lt_compat_r; [lra |]. unfold Rdiv.
    apply Rmult_lt_compat_r; lra. }
  split; [lra |]. split; [exact H2 |].
  rewrite !calculateSpringValue_bouncy_path by (fold zeta; lra).
  fold zeta omega w.
  replace (0 / d) with 0 by (field; lra).
  replace (PI / w * d / d) with (PI / w) by (field; lra).
  replace (2 * PI / w * d / d) with (2 * PI / w) by (field; lra).
  repeat (split; [reflexivity |]).
  replace (w * 0) with 0 by ring.
  replace (w * (PI / w)) with PI by (field; lra).
  replace (w * (2 * PI / w)) with (2 * PI) by (field; lra).
  rewrite cos_0, cos_PI, cos_2PI.
  pose proof (exp_pos (- zeta * omega * 0)).
  pose proof (exp_pos (- zeta * omega * (PI / w))).
  pose proof (exp_pos (- zeta * omega * (2 * PI / w))).
  repeat split; lra.
Qed.

End DurationBounceEvaluated.

(** ** C8: the physical-parameter path *)

Section Physical.

Lemma constructor_physical (o : gmap string num) (m s d : num) :
  o !! "mass"%string = Some m ->
  o !! "stiffness"%string = Some s ->
  o !! "damping"%string = Some d ->
  constructor (CfgObject o)
  = Ok {| mass := m; stiffness := s; damping := d;
          duration := (2 * Math_PI / Math_sqrt (s / m))%js;
          bounce := ((2 * Math_sqrt (m * s) - d) / (2 * Math_sqrt (m * s)))%js |}.
Proof. intros Hm Hs Hd. unfold constructor. now rewrite Hm, Hs, Hd. Qed.

Lemma fromPhysics_eq (m s d : num) :
  fromPhysics m s d
  = Ok {| mass := m; stiffness := s; damping := d;
          duration := (2 * Math_PI / Math_sqrt (s / m))%js;
          bounce := ((2 * Math_sqrt (m * s) - d) / (2 * Math_sqrt (m * s)))%js |}.
Proof. unfold fromPhysics. now apply constructor_physical. Qed.

Lemma physical_duration (m s : R) :
  0 < m -> 0 < s ->
  (2 * Math_PI / Math_sqrt (Fin s / Fin m))%js = Fin (2 * PI / sqrt (s / m)).
Proof.
  intros Hm Hs.
  assert (0 < s / m) by (apply Rdiv_lt_0_compat; assumption).
  assert (0 < sqrt (s / m)) by (now apply sqrt_lt_R0).
  unfold Math_PI.
  rewrite (div_Fin s m), sqrt_Fin, mul_Fin, div_Fin by lra.
  reflexivity.
Qed.

Lemma physical_bounce (m s d : R) :
  0 < m -> 0 < s ->
  ((2 * Math_sqrt (Fin m * Fin s) - Fin d) / (2 * Math_sqrt (Fin m * Fin s)))%js
  = Fin ((2 * sqrt (m * s) - d) / (2 * sqrt (m * s))).
Proof.
  intros Hm Hs.
  pose proof (sqrt_mass_stiffness_pos m s Hm Hs).
  rewrite mul_Fin, sqrt_Fin, mul_Fin, sub_Fin, div_Fin by nra.
  reflexivity.
Qed.

(** C8. A configuration that carries mass, stiffness and damping (mass and
    stiffness positive) resolves to a model that keeps the three values,
    with [duration = 2*pi / sqrt(stiffness/mass)] and
    [bounce = (criticalDamping - damping) / criticalDamping] where
    [criticalDamping = 2*sqrt(mass*stiffness)]; and
    [{mass: 1, stiffness: 100, damping: 10}] resolves to a duration within
    0.001 of 0.628 and to the bounce 1/2, which lies in [[-1, 1]]. *)
Theorem physical_path :
  (forall (o : gmap string num) (m s d : R),
      o !! "mass"%string = Some (Fin m) ->
      o !! "stiffness"%string = Some (Fin s) ->
      o !! "damping"%string = Some (Fin d) ->
      0 < m -> 0 < s ->
      let criticalDamping := 2 * sqrt (m * s) in
      constructor (CfgObject o)
      = Ok {| mass := m; stiffness := s; damping := d;
              duration := Fin (2 * PI / sqrt (s / m));
              bounce := Fin ((criticalDamping - d) / criticalDamping) |})
  /\ (exists du b : R,
         constructor (CfgObject {[ "mass"%string := Fin 1;
                                   "stiffness"%string := Fin 100;
                                   "damping"%string := Fin 10 ]})
         = Ok {| mass := 1; stiffness := 100; damping := 10;
                 duration := Fin du; bounce := Fin b |}
         /\ Rabs (du - 0.628) < 0.001
         /\ -1 <= b <= 1).
Proof.
  assert (General : forall (o : gmap string num) (m s d : R),
      o !! "mass"%string = Some (Fin m) ->
      o !! "stiffness"%string = Some (Fin s) ->
      o !! "damping"%string = Some (Fin d) ->
      0 < m -> 0 < s ->
      constructor (CfgObject o)
      = Ok {| mass := m; stiffness := s; damping := d;
              duration := Fin (2 * PI / sqrt (s / m));
              bounce := Fin ((2 * sqrt (m * s) - d) / (2 * sqrt (m * s))) |}).
  { intros o m s d Hm Hs Hd Hmpos Hspos.
    rewrite (constructor_physical o _ _ _ Hm Hs Hd).
    now rewrite physical_duration, physical_bounce. }
  split; [exact General |].
  exists (2 * PI / sqrt (100 / 1)), ((2 * sqrt (1 * 100) - 10) / (2 * sqrt (1 * 100))).
  split; [apply General; solve [reflexivity | lra] |].
  replace (100 / 1) with 100 by lra.
  replace (1 * 100) with 100 by lra.
  rewrite sqrt_100.
  pose proof PI_bounds.
  split; [apply Rabs_def1; lra | lra].
Qed.

Lemma physical_path_witness :
  constructor (CfgObject {[ "mass"%string := Fin 2;
                            "stiffness"%string := Fin 8;
                            "damping"%string := Fin 4 ]})
  = Ok {| mass := 2; stiffness := 8; damping := 4;
          duration := Fin (2 * PI / sqrt (8 / 2));
          bounce := Fin ((2 * sqrt (2 * 8) - 4) / (2 * sqrt (2 * 8))) |}.
Proof.
  apply (proj1 physical_path); solve [reflexivity | lra].
Defined.

End Physical.

(** ** The physical path with mass 1 *)

Section UnitMass.

Variables S D : R.
Hypothesis S_pos : 0 < S.

Let sqrt_S_pos : 0 < sqrt S.
Proof. now apply sqrt_lt_R0. Qed.

Let period_pos : 0 < 2 * PI / sqrt S.
Proof. pose proof PI_RGT_0. apply Rdiv_lt_0_compat; lra. Qed.

(** The model that [fromPhysics(1, S, D)] returns. *)
Lemma fromPhysics_unit_mass :
  fromPhysics 1 S D
  = Ok {| mass := 1; stiffness := S; damping := D;
          duration := Fin (2 * PI / sqrt S);
          bounce := Fin (1 - D / (2 * sqrt S)) |}.
Proof.
  rewrite fromPhysics_eq, physical_duration, physical_bounce by lra.
  replace (S / 1) with S by lra.
  replace (1 * S) with S by lra.
  do 3 f_equal. field. lra.
Qed.

(** Re-deriving from the derived [(duration, bounce)]: the stiffness
    comes back ... *)
Lemma round_trip_stiffness :
  exists m : Spring,
    fromPhysics 1 S D = Ok m
    /\ stiffness (initFromDurationAndBounce (duration m) (bounce m)) = Fin S.
Proof.
  rewrite fromPhysics_unit_mass. eexists; split; [reflexivity |].
  cbn [duration bounce].
  unfold initFromDurationAndBounce; cbn [stiffness]. unfold Math_PI.
  rewrite Math_pow_2, mul_Fin, div_Fin, mul_Fin by lra.
  f_equal.
  pose proof PI_RGT_0.
  replace (2 * PI / (2 * PI / sqrt S)) with (sqrt S) by (field; lra).
  apply sqrt_sqrt. lra.
Qed.

(** ... but the damping comes back shifted by [1 - 2*sqrt S]. *)
Lemma round_trip_damping :
  D <= 2 * sqrt S ->
  exists m : Spring,
    fromPhysics 1 S D = Ok m
    /\ damping (initFromDurationAndBounce (duration m) (bounce m))
       = Fin (D + (1 - 2 * sqrt S)).
Proof.
  intros HD. rewrite fromPhysics_unit_mass. eexists; split; [reflexivity |].
  cbn [duration bounce].
  pose proof PI_RGT_0.
  rewrite initFromDurationAndBounce_nonneg; [| lra |].
  - cbn [damping]. f_equal. field. lra.
  - assert (0 <= (2 * sqrt S - D) * / (2 * sqrt S)).
    { apply Rmult_le_pos; [lra |]. apply Rlt_le, Rinv_0_lt_compat. lra. }
    replace (1 - D / (2 * sqrt S)) with ((2 * sqrt S - D) * / (2 * sqrt S))
      by (field; lra).
    assumption.
Qed.




End UnitMass.

(** ** C3: the two derivations are not inverse to each other *)

Section RoundTrip.

(** The other way round: what the physical path makes of the parameters
    that the duration and bounce path derives from [(d, b)], [b >= 0].
    The duration comes back, the bounce comes back shifted by
    [1 - d / (4*pi)]. *)
Lemma round_trip_bounce (d b : R) :
  0 < d -> 0 <= b ->
  let m := initFromDurationAndBounce d b in
  fromPhysics (mass m) (stiffness m) (damping m)
  = Ok {| mass := 1; stiffness := stiffness m; damping := damping m;
          duration := Fin d; bounce := Fin (b + (1 - d / (4 * PI))) |}.
Proof.
  intros Hd Hb m. subst m.
  rewrite initFromDurationAndBounce_nonneg by lra.
  cbn [mass stiffness damping].
  rewrite fromPhysics_eq.
  pose proof PI_RGT_0.
  assert (Hk : 0 < 2 * PI / d) by (apply Rdiv_lt_0_compat; lra).
  assert (Hsq : sqrt ((2 * PI / d) ^ 2) = 2 * PI / d).
  { replace ((2 * PI / d) ^ 2) with ((2 * PI / d) * (2 * PI / d)) by ring.
    apply sqrt_square. lra. }
  rewrite physical_duration, physical_bounce by (try apply pow_lt; lra).
  replace ((2 * PI / d) ^ 2 / 1) with ((2 * PI / d) ^ 2) by lra.
  replace (1 * (2 * PI / d) ^ 2) with ((2 * PI / d) ^ 2) by lra.
  rewrite Hsq.
  do 3 f_equal; field; lra.
Qed.

(** C3, at [(mass = 1, S = 1, D = 1)]: the derived pair is
    [(duration, bounce) = (2*pi, 1/2)], and re-deriving from it gives the
    stiffness 1 back but the damping 0 instead of 1. *)
Theorem round_trip_loses_damping :
  exists m : Spring,
    fromPhysics 1 1 1 = Ok m
    /\ duration m = Fin (2 * PI)
    /\ bounce m = Fin (1 / 2)
    /\ stiffness (initFromDurationAndBounce (duration m) (bounce m)) = Fin 1
    /\ damping (initFromDurationAndBounce (duration m) (bounce m)) = Fin 0.
Proof.
  rewrite fromPhysics_unit_mass by lra. eexists; split; [reflexivity |].
  cbn [duration bounce].
  rewrite sqrt_1.
  replace (2 * PI / 1) with (2 * PI) by lra.
  replace (1 - 1 / (2 * 1)) with (1 / 2) by lra.
  pose proof PI_RGT_0.
  rewrite initFromDurationAndBounce_nonneg by lra.
  cbn [stiffness damping].
  repeat split; f_equal; field; lra.
Qed.

End RoundTrip.

(** ** C9: the range of [bounce] *)

Section BounceRange.

(** The duration and bounce path clamps, whatever the configuration
    holds. *)
Lemma bounce_in_range_default_path (o : gmap string num) :
  ~ (is_Some (o !! "mass"%string) /\ is_Some (o !! "stiffness"%string)
     /\ is_Some (o !! "damping"%string)) ->
  exists (m : Spring) (c : R),
    constructor (CfgObject o) = Ok m /\ bounce m = Fin c /\ -1 <= c <= 1.
Proof.
  intros Hmiss. rewrite (constructor_default_path o Hmiss).
  destruct (clamp_or_default_range (o !! "bounce"%string)) as (c & Hc & Hrange).
  eexists; exists c. split; [reflexivity |].
  split; [exact Hc | exact Hrange].
Qed.

(** The three presets are in range. *)
Lemma bounce_in_range_presets (name : string) (p : preset) :
  PRESETS !! name = Some p ->
  exists c : R, p_bounce p = Fin c /\ -1 <= c <= 1.
Proof.
  unfold PRESETS. intros H.
  apply lookup_insert_Some in H as [[_ <-] | [_ H]]; [exists 0.4; split; [reflexivity | lra] |].
  apply lookup_insert_Some in H as [[_ <-] | [_ H]]; [exists 0; split; [reflexivity | lra] |].
  apply lookup_singleton_Some in H as [_ <-].
  exists (- 0.2). split; [reflexivity | lra].
Qed.

(** On the physical path the bounce is [1 - damping / criticalDamping]:
    in range exactly when the damping lies between 0 and twice the
    critical damping. *)
Lemma physical_bounce_range (m s d : R) :
  0 < m -> 0 < s ->
  let b := (2 * sqrt (m * s) - d) / (2 * sqrt (m * s)) in
  -1 <= b <= 1 <-> 0 <= d <= 4 * sqrt (m * s).
Proof.
  intros Hm Hs b.
  pose proof (sqrt_mass_stiffness_pos m s Hm Hs) as Hpos.
  assert (Hb : b = 1 - d / (2 * sqrt (m * s))) by (unfold b; field; lra).
  assert (Hd : d = (1 - b) * (2 * sqrt (m * s))) by (rewrite Hb; field; lra).
  split; intros [H1 H2]; split; nra.
Qed.

(** C9, at [{mass: 1, stiffness: 1, damping: 10}]: the constructor returns
    a model whose bounce is [-4]. *)
Theorem physical_bounce_unclamped :
  fromPhysics 1 1 10
  = Ok {| mass := 1; stiffness := 1; damping := 10;
          duration := Fin (2 * PI); bounce := Fin (- 4) |}.
Proof.
  rewrite fromPhysics_unit_mass by lra.
  rewrite sqrt_1.
  do 3 f_equal; lra.
Qed.

End BounceRange.

(** ** C10: a partial set of physical keys *)

Section PartialPhysical.

(** C10. A configuration object whose keys are a strict subset of
    [{mass, stiffness, damping}] does not make the constructor throw: it
    resolves on the duration and bounce path with the defaults (duration
    0.5, bounce 0), the supplied physical values are ignored, and the
    stiffness is [(2*pi/0.5)^2] whatever the configuration says. *)
Theorem partial_physical_keys_ignored (o : gmap string num) :
  dom o ⊂ ({[ "mass"; "stiffness"; "damping" ]} : gset string) ->
  constructor (CfgObject o)
  = Ok {| mass := 1; stiffness := Fin ((2 * PI / 0.5) ^ 2); damping := 1;
          duration := 0.5; bounce := 0 |}.
Proof.
  intros [Hsub Hstrict].
  assert (Hmiss : ~ (is_Some (o !! "mass"%string) /\ is_Some (o !! "stiffness"%string)
                     /\ is_Some (o !! "damping"%string))).
  { intros (Hm & Hs & Hd). apply Hstrict.
    apply elem_of_dom in Hm, Hs, Hd.
    intros k Hk. rewrite !elem_of_union, !elem_of_singleton in Hk.
    destruct Hk as [[-> | ->] | ->]; assumption. }
  assert (Hother : forall k : string,
             k <> "mass"%string -> k <> "stiffness"%string ->
             k <> "damping"%string -> o !! k = None).
  { intros k H1 H2 H3. apply not_elem_of_dom. intros Hin. apply Hsub in Hin.
    rewrite !elem_of_union, !elem_of_singleton in Hin.
    destruct Hin as [[? | ?] | ?]; contradiction. }
  assert (Hdur : o !! "duration"%string = None) by (apply Hother; discriminate).
  assert (Hbounce : o !! "bounce"%string = None) by (apply Hother; discriminate).
  rewrite (constructor_default_path o Hmiss), Hdur, Hbounce.
  cbn [or_default].
  rewrite clamp_Fin.
  assert (Hc : Spec.clamp 0 = 0).
  { unfold Spec.clamp, Rmin, Rmax.
    destruct (Rle_dec 1 0); [lra |]. destruct (Rle_dec (-1) 0); lra. }
  rewrite Hc, initFromDurationAndBounce_nonneg by lra.
  do 3 f_equal. lra.
Qed.

Lemma partial_physical_keys_ignored_witness :
  constructor (CfgObject {[ "stiffness"%string := Fin 300 ]})
  = Ok {| mass := 1; stiffness := Fin ((2 * PI / 0.5) ^ 2); damping := 1;
          duration := 0.5; bounce := 0 |}.
Proof.
  apply partial_physical_keys_ignored.
  rewrite dom_singleton_L.
  split.
  - intros k Hk. apply elem_of_singleton in Hk as ->.
    rewrite !elem_of_union, !elem_of_singleton. auto.
  - intros H. specialize (H "mass"%string).
    rewrite !elem_of_union, !elem_of_singleton in H.
    specialize (H (or_introl (or_introl eq_refl))). discriminate H.
Defined.

End PartialPhysical.

(** ** C6: the bezier approximation *)

Section Bezier.

Lemma generateBezierPoints_nonpositive (m s d du : num) (b : R) :
  b <= 0 ->
  generateBezierPoints (mkSpring m s d du b)
  = [Fin (0.16 + 0.12 * Rabs b); Fin 0; Fin (0.28 + 0.12 * Rabs b); Fin 1].
Proof.
  intros Hb. unfold generateBezierPoints; cbn [bounce].
  now rewrite le_Fin_true by assumption.
Qed.

Lemma generateBezierPoints_positive (m s d du : num) (b : R) :
  0 < b ->
  generateBezierPoints (mkSpring m s d du b)
  = [Fin 0.2; Fin (0.2 + b * 0.2); Fin 0.8; Fin (1 + b * 0.2)].
Proof.
  intros Hb. unfold generateBezierPoints; cbn [bounce].
  now rewrite le_Fin_false by assumption.
Qed.

(** The scenario of the specification: bounce [-0.2] gives
    [x1 = 0.184] and [x2 = 0.304]. *)
Lemma generateBezierPoints_flattened (m s d du : num) :
  generateBezierPoints (mkSpring m s d du (Fin (- 0.2)))
  = [Fin 0.184; Fin 0; Fin 0.304; Fin 1].
Proof.
  rewrite generateBezierPoints_nonpositive by lra.
  rewrite Rabs_left by lra.
  repeat f_equal; lra.
Qed.

(** A bounce outside [[-1, 1]], as the physical path can produce it,
    puts the first control point outside the unit square. *)
Lemma generateBezierPoints_unclamped :
  fromPhysics 1 1 20
  = Ok {| mass := 1; stiffness := 1; damping := 20;
          duration := Fin (2 * PI); bounce := Fin (- 9) |}
  /\ generateBezierPoints (mkSpring 1 1 20 (Fin (2 * PI)) (Fin (- 9)))
     = [Fin 1.24; Fin 0; Fin 1.36; Fin 1].
Proof.
  split.
  - rewrite fromPhysics_unit_mass by lra.
    rewrite sqrt_1.
    do 3 f_equal; lra.
  - rewrite generateBezierPoints_nonpositive by lra.
    rewrite Rabs_left by lra.
    repeat f_equal; lra.
Qed.

(** C6. The control points depend on [bounce] alone: two models with the
    same bounce get the same points, whatever their other fields.  For
    [bounce <= 0] the points are
    [(0.16 + 0.12*|bounce|, 0, 0.28 + 0.12*|bounce|, 1)], for [bounce > 0]
    they are [(0.2, 0.2 + overshoot, 0.8, 1 + overshoot)] with
    [overshoot = bounce * 0.2]. *)
Theorem generateBezierPoints_of_bounce :
  (forall m1 m2 : Spring,
      bounce m1 = bounce m2 ->
      generateBezierPoints m1 = generateBezierPoints m2)
  /\ (forall (m : Spring) (b : R),
         bounce m = Fin b -> b <= 0 ->
         generateBezierPoints m
         = [Fin (0.16 + 0.12 * Rabs b); Fin 0; Fin (0.28 + 0.12 * Rabs b); Fin 1])
  /\ (forall (m : Spring) (b : R),
         bounce m = Fin b -> 0 < b ->
         let overshoot := b * 0.2 in
         generateBezierPoints m
         = [Fin 0.2; Fin (0.2 + overshoot); Fin 0.8; Fin (1 + overshoot)]).
Proof.
  split; [| split].
  - intros m1 m2 H. unfold generateBezierPoints. now rewrite H.
  - intros [m s d du b'] b H Hb. cbn in H. subst b'.
    now apply generateBezierPoints_nonpositive.
  - intros [m s d du b'] b H Hb. cbn in H. subst b'.
    now apply generateBezierPoints_positive.
Qed.

Lemma generateBezierPoints_of_bounce_witness :
  generateBezierPoints (mkSpring 1 246 (Fin (- 6)) 0.4 (Fin (- 0.2)))
  = generateBezierPoints (mkSpring 3 10 2 1.5 (Fin (- 0.2)))
  /\ generateBezierPoints (mkSpring 1 246 (Fin (- 6)) 0.4 (Fin (- 0.2)))
     = [Fin (0.16 + 0.12 * Rabs (- 0.2)); Fin 0; Fin (0.28 + 0.12 * Rabs (- 0.2)); Fin 1]
  /\ generateBezierPoints (mkSpring 1 80 (Fin (- 6)) 0.7 0.4)
     = [Fin 0.2; Fin (0.2 + 0.4 * 0.2); Fin 0.8; Fin (1 + 0.4 * 0.2)].
Proof.
  destruct generateBezierPoints_of_bounce as (Hsame & Hneg & Hpos).
  split; [apply Hsame; reflexivity |].
  split; [apply Hneg; [reflexivity | lra] | apply Hpos; [reflexivity | lra]].
Defined.

End Bezier.

(** ** C7: presets *)

Section Presets.

Lemma initFromDurationAndBounce_undefined :
  initFromDurationAndBounce NaN NaN
  = {| mass := 1; stiffness := NaN; damping := NaN; duration := NaN; bounce := NaN |}.
Proof. reflexivity. Qed.

(** A name of the table resolves to its [(duration, bounce)] pair, with
    mass 1. *)
Lemma constructor_preset (name : string) (p : preset) :
  PRESETS !! name = Some p ->
  exists m : Spring,
    constructor (CfgString name) = Ok m
    /\ duration m = p_duration p /\ bounce m = p_bounce p /\ mass m = Fin 1.
Proof.
  intros H. unfold constructor, PRESETS_get. rewrite H.
  eexists; split; [reflexivity |]. repeat split.
Qed.

Lemma constructor_bouncy :
  constructor (CfgString "bouncy")
  = Ok {| mass := 1; stiffness := Fin ((2 * PI / 0.7) ^ 2);
          damping := Fin (1 - 4 * PI * 0.4 / 0.7);
          duration := 0.7; bounce := 0.4 |}.
Proof.
  change (constructor (CfgString "bouncy"))
    with (Ok (initFromDurationAndBounce 0.7 0.4)).
  now rewrite initFromDurationAndBounce_nonneg by lra.
Qed.


Lemma constructor_giggly :
  constructor (CfgString "giggly") = Throw "Unknown preset: giggly".
Proof. reflexivity. Qed.

(** The static helper [fromPreset] never throws: for a name that is no
    preset it returns the model of the default configuration. *)
Lemma fromPreset_unknown (name : string) :
  PRESETS !! name = None ->
  fromPreset name = constructor (CfgObject ∅).
Proof.
  intros H. unfold fromPreset, PRESETS_get. rewrite H.
  now destruct (decide (name ∈ Object_prototype)).
Qed.

Lemma constructor_empty_config :
  constructor (CfgObject ∅)
  = Ok {| mass := 1; stiffness := Fin ((2 * PI / 0.5) ^ 2); damping := 1;
          duration := 0.5; bounce := 0 |}.
Proof.
  rewrite constructor_default_path.
  - rewrite !lookup_empty. cbn [or_default].
    rewrite clamp_Fin.
    assert (Hc : Spec.clamp 0 = 0).
    { unfold Spec.clamp, Rmin, Rmax.
      destruct (Rle_dec 1 0); [lra |]. destruct (Rle_dec (-1) 0); lra. }
    rewrite Hc, initFromDurationAndBounce_nonneg by lra.
    do 3 f_equal. lra.
  - intros ([x Hx] & _). rewrite lookup_empty in Hx. discriminate.
Qed.

Lemma fromPreset_giggly :
  fromPreset "giggly"
  = Ok {| mass := 1; stiffness := Fin ((2 * PI / 0.5) ^ 2); damping := 1;
          duration := 0.5; bounce := 0 |}.
Proof. rewrite fromPreset_unknown by reflexivity. apply constructor_empty_config. Qed.

(** The class of springs.js resolves ["bouncy"] to other values, keeps
    the duration of the configuration, and ignores a name it does not
    know. *)
Lemma SpringsJs_bouncy :
  SpringsJs.constructor ∅ (Some "bouncy"%string)
  = {| mass := 1; stiffness := 200; damping := 5; duration := 0.5; bounce := 0.4 |}.
Proof. reflexivity. Qed.

Lemma SpringsJs_giggly :
  SpringsJs.constructor ∅ (Some "giggly"%string)
  = {| mass := 1; stiffness := 100; damping := 10; duration := 0.5; bounce := 0.2 |}.
Proof. reflexivity. Qed.

(** C7, at the names ["toString"] and ["giggly"]: neither is a preset.
    For ["toString"] the constructor does not throw; it returns a model
    whose duration and bounce are undefined and whose stiffness and
    damping are [NaN].  For ["giggly"] the constructor throws, but the
    helper [fromPreset] does not: it returns the model of the default
    configuration. *)
Theorem unknown_preset_not_rejected :
  PRESETS !! "toString"%string = None
  /\ constructor (CfgString "toString")
     = Ok {| mass := 1; stiffness := NaN; damping := NaN;
             duration := NaN; bounce := NaN |}
  /\ PRESETS !! "giggly"%string = None
  /\ fromPreset "giggly"
     = Ok {| mass := 1; stiffness := Fin ((2 * PI / 0.5) ^ 2); damping := 1;
             duration := 0.5; bounce := 0 |}.
Proof.
  split; [reflexivity |]. split; [reflexivity |]. split; [reflexivity |].
  apply fromPreset_giggly.
Qed.

End Presets.

(** ** C4 and C5: the presets in the evaluator *)

Section PresetsEvaluated.

(** The presets ["smooth"] and ["flattened"] evaluate to [NaN] at every
    elapsed time. *)
Lemma smooth_preset_is_NaN (t : num) :
  calculateSpringValue (initFromDurationAndBounce 0.5 0) t = NaN.
Proof. apply zero_bounce_is_NaN. pose proof PI_bounds. lra. Qed.

Lemma flattened_preset_is_NaN (t : num) :
  constructor (CfgString "flattened") = Ok (initFromDurationAndBounce 0.4 (Fin (- 0.2)))
  /\ calculateSpringValue (initFromDurationAndBounce 0.4 (Fin (- 0.2))) t = NaN.
Proof.
  split; [reflexivity |].
  apply negative_bounce_is_NaN; pose proof PI_bounds; lra.
Qed.

(** C4, at the preset ["smooth"] (the same model as the default
    configuration): the constructor returns a model that meets the
    invariants of the data model (mass 1, positive stiffness, duration
    0.5, bounce 0), and its value at elapsed time 0 is [NaN], not 1. *)
Theorem smooth_preset_at_zero :
  exists (m : Spring) (s : R),
    constructor (CfgString "smooth") = Ok m
    /\ mass m = Fin 1
    /\ stiffness m = Fin s /\ 0 < s
    /\ duration m = Fin 0.5
    /\ bounce m = Fin 0
    /\ calculateSpringValue m 0 = NaN.
Proof.
  pose proof PI_bounds as Hpi.
  exists (initFromDurationAndBounce 0.5 0), ((2 * PI / 0.5) ^ 2).
  split; [reflexivity |].
  pose proof (smooth_preset_is_NaN 0) as Hnan.
  rewrite initFromDurationAndBounce_nonneg in * by lra.
  cbn [mass stiffness duration bounce].
  repeat split; try reflexivity; [apply pow_lt; lra | exact Hnan].
Qed.

(** C5, at the preset ["bouncy"]: the constructor returns a model that
    meets the invariants of the data model (mass 1, positive stiffness,
    duration 0.7, bounce 0.4), and its value is unbounded over [t >= 0]:
    for every bound [M] there is an elapsed time at which the value
    exceeds [M]. *)
Theorem bouncy_preset_diverges :
  exists (m : Spring) (s : R),
    constructor (CfgString "bouncy") = Ok m
    /\ mass m = Fin 1
    /\ stiffness m = Fin s /\ 0 < s
    /\ duration m = Fin 0.7
    /\ bounce m = Fin 0.4
    /\ forall M : R, exists t v : R,
         0 <= t /\ calculateSpringValue m t = Fin v /\ M < v.
Proof.
  pose proof PI_bounds as Hpi.
  exists (initFromDurationAndBounce 0.7 0.4), ((2 * PI / 0.7) ^ 2).
  split; [reflexivity |].
  assert (Hdiv : forall M : R, exists t v : R,
             0 <= t
             /\ calculateSpringValue (initFromDurationAndBounce 0.7 0.4) t = Fin v
             /\ M < v).
  { apply negative_damping_diverges; try lra.
    assert (0 < 0.7 / (4 * PI)) by (apply Rdiv_lt_0_compat; lra).
    lra. }
  rewrite initFromDurationAndBounce_nonneg in * by lra.
  cbn [mass stiffness duration bounce].
  repeat split; try reflexivity; [apply pow_lt; lra | exact Hdiv].
Qed.

(** The same preset does cross its settled value 0 more than once. *)
Lemma bouncy_preset_crosses_twice :
  exists t1 t2 t3 v1 v2 v3 : R,
    0 <= t1 < t2 /\ t2 < t3
    /\ calculateSpringValue (initFromDurationAndBounce 0.7 0.4) t1 = Fin v1
    /\ calculateSpringValue (initFromDurationAndBounce 0.7 0.4) t2 = Fin v2
    /\ calculateSpringValue (initFromDurationAndBounce 0.7 0.4) t3 = Fin v3
    /\ 0 < v1 /\ v2 < 0 /\ 0 < v3.
Proof.
  pose proof PI_bounds as Hpi.
  apply oscillatory_crosses_twice; try lra.
  assert (0 < 0.7 / (4 * PI)) by (apply Rdiv_lt_0_compat; lra).
  assert (0.7 / (4 * PI) < 0.1).
  { apply Rmult_lt_reg_r with (4 * PI); [lra |].
    replace (0.7 / (4 * PI) * (4 * PI)) with 0.7 by (field; lra). lra. }
  nra.
Qed.

End PresetsEvaluated.

(** ** Further properties of the resolver *)

Section ResolverProperties.

Lemma clamp_id (b : R) : -1 <= b <= 1 -> Spec.clamp b = b.
Proof.
  intros [H1 H2]. unfold Spec.clamp, Rmax, Rmin.
  destruct (Rle_dec 1 b).
  - destruct (Rle_dec (-1) 1); lra.
  - destruct (Rle_dec (-1) b); lra.
Qed.

Lemma or_default_truthy (v : option num) (d : num) :
  truthy d = true -> truthy (or_default v d) = true.
Proof.
  intros Hd. destruct v as [x |]; cbn [or_default]; [| exact Hd].
  destruct (truthy x) eqn:Hx; assumption.
Qed.

(** X1. On the duration and bounce path, whatever the configuration holds
    under [duration] and [bounce] (nothing, zero, [NaN], an infinity, any
    number), the model has mass 1, a finite bounce in [[-1, 1]], and a
    duration that is neither 0 nor [NaN]. *)
Theorem default_path_invariants (o : gmap string num) :
  ~ (is_Some (o !! "mass"%string) /\ is_Some (o !! "stiffness"%string)
     /\ is_Some (o !! "damping"%string)) ->
  exists (m : Spring) (c : R),
    constructor (CfgObject o) = Ok m
    /\ mass m = Fin 1
    /\ bounce m = Fin c /\ -1 <= c <= 1
    /\ truthy (duration m) = true.
Proof.
  intros Hmiss. rewrite (constructor_default_path o Hmiss).
  destruct (clamp_or_default_range (o !! "bounce"%string)) as (c & Hc & Hrange).
  eexists; exists c. split; [reflexivity |].
  cbn [mass bounce duration initFromDurationAndBounce].
  repeat split; try assumption; try lra.
  apply or_default_truthy, truthy_Fin. lra.
Qed.

Lemma default_path_invariants_witness :
  exists (m : Spring) (c : R),
    constructor (CfgObject {[ "duration"%string := NaN; "bounce"%string := PInf ]})
    = Ok m
    /\ mass m = Fin 1
    /\ bounce m = Fin c /\ -1 <= c <= 1
    /\ truthy (duration m) = true.
Proof.
  apply default_path_invariants.
  intros ([x Hx] & _). vm_compute in Hx. discriminate.
Defined.


(** X3. For the three presets the two ways of naming one agree:
    [Spring.fromPreset(name)] builds the same model as [new Spring(name)].
    The spread entry passes the clamp and the [||] defaults unchanged. *)
Theorem fromPreset_agrees_with_constructor (name : string) (p : preset) :
  PRESETS !! name = Some p ->
  fromPreset name = constructor (CfgString name).
Proof.
  intros Hp.
  assert (Hcases : exists d b : R,
             p = mkPreset (Fin d) (Fin b) /\ d <> 0 /\ -1 <= b <= 1).
  { unfold PRESETS in Hp.
    apply lookup_insert_Some in Hp as [[_ <-] | [_ Hp]];
      [exists 0.7, 0.4; repeat split; lra |].
    apply lookup_insert_Some in Hp as [[_ <-] | [_ Hp]];
      [exists 0.5, 0; repeat split; lra |].
    apply lookup_singleton_Some in Hp as [_ <-].
    exists 0.4, (- 0.2). repeat split; lra. }
  destruct Hcases as (d & b & -> & Hd & Hb).
  unfold fromPreset, constructor at 2, PRESETS_get. rewrite Hp.
  cbn [spread_preset p_duration p_bounce].
  rewrite constructor_default_path.
  - rewrite lookup_insert_eq.
    rewrite lookup_insert_ne by discriminate.
    rewrite lookup_singleton_eq.
    rewrite or_default_Fin, or_default_zero, clamp_Fin, clamp_id by assumption.
    destruct (Req_dec_T d 0); [contradiction | reflexivity].
  - intros ([x Hx] & _).
    rewrite lookup_insert_ne in Hx by discriminate.
    rewrite lookup_singleton_ne in Hx by discriminate.
    discriminate.
Qed.

Lemma fromPreset_agrees_with_constructor_witness :
  fromPreset "flattened" = constructor (CfgString "flattened").
Proof.
  apply (fromPreset_agrees_with_constructor "flattened" (mkPreset 0.4 (- 0.2))).
  reflexivity.
Defined.

(** X4. Two round trips that do hold.  From [(mass = 1, S, D)] the
    derived [(duration, bounce)] gives the stiffness [S] back, whatever
    the damping.  From a duration [d > 0] and any bounce, the physical
    parameters that [initFromDurationAndBounce] derives give the
    duration [d] back. *)
Theorem stiffness_and_duration_round_trip :
  (forall S D : R,
      0 < S ->
      exists m : Spring,
        fromPhysics 1 S D = Ok m
        /\ stiffness (initFromDurationAndBounce (duration m) (bounce m)) = Fin S)
  /\ (forall (d : R) (b : num),
         0 < d ->
         let m := initFromDurationAndBounce d b in
         exists m' : Spring,
           fromPhysics (mass m) (stiffness m) (damping m) = Ok m'
           /\ duration m' = Fin d).
Proof.
  split.
  - intros S D HS. now apply round_trip_stiffness.
  - intros d b Hd m. rewrite fromPhysics_eq. eexists; split; [reflexivity |].
    subst m. cbn [mass stiffness damping duration initFromDurationAndBounce].
    pose proof PI_RGT_0 as Hpi.
    assert (Hk : 0 < 2 * PI / d) by (apply Rdiv_lt_0_compat; lra).
    unfold Math_PI.
    rewrite Math_pow_2, !mul_Fin, (div_Fin (2 * PI) d), mul_Fin by lra.
    rewrite (div_Fin _ 1) by lra.
    replace (2 * PI / d * (2 * PI / d) / 1) with ((2 * PI / d) * (2 * PI / d)) by lra.
    rewrite sqrt_Fin by nra.
    rewrite sqrt_square by lra.
    rewrite div_Fin by lra.
    f_equal. field. lra.
Qed.

Lemma stiffness_and_duration_round_trip_witness :
  (exists m : Spring,
      fromPhysics 1 100 10 = Ok m
      /\ stiffness (initFromDurationAndBounce (duration m) (bounce m)) = Fin 100)
  /\ (exists m' : Spring,
         fromPhysics (mass (initFromDurationAndBounce 0.7 0.4))
                     (stiffness (initFromDurationAndBounce 0.7 0.4))
                     (damping (initFromDurationAndBounce 0.7 0.4)) = Ok m'
         /\ duration m' = Fin 0.7).
Proof.
  split.
  - apply (proj1 stiffness_and_duration_round_trip). lra.
  - apply (proj2 stiffness_and_duration_round_trip 0.7 0.4). lra.
Defined.

(** A configuration without any of the five numeric keys resolves to the
    default model. *)
Lemma constructor_without_numeric_keys (o : gmap string num) :
  o !! "mass"%string = None ->
  o !! "duration"%string = None ->
  o !! "bounce"%string = None ->
  constructor (CfgObject o) = constructor (CfgObject ∅).
Proof.
  intros Hm Hd Hb.
  rewrite !constructor_default_path.
  - now rewrite Hd, Hb, !lookup_empty.
  - intros ([x Hx] & _). rewrite lookup_empty in Hx. discriminate.
  - intros ([x Hx] & _). rewrite Hm in Hx. discriminate.
Qed.

End ResolverProperties.

(** ** Further properties of the evaluator *)

Section EvaluatorProperties.






Lemma generateBezierPoints_by_bounce (m : Spring) (b : R) :
  bounce m = Fin b ->
  generateBezierPoints m
  = if Rle_dec b 0
    then [Fin (0.16 + 0.12 * Rabs b); Fin 0; Fin (0.28 + 0.12 * Rabs b); Fin 1]
    else [Fin 0.2; Fin (0.2 + b * 0.2); Fin 0.8; Fin (1 + b * 0.2)].
Proof.
  destruct m as [m s d du b']. cbn [bounce]. intros ->.
  destruct (Rle_dec b 0).
  - now apply generateBezierPoints_nonpositive.
  - apply generateBezierPoints_positive. lra.
Qed.

(** X7. A model built on the duration and bounce path always yields a
    usable timing curve: four finite control points whose x-coordinates
    satisfy [0 <= x1 < x2 <= 1], with [0 <= y1] and [1 <= y2 <= 1.2]. *)
Theorem bezier_points_valid_on_default_path (o : gmap string num) :
  ~ (is_Some (o !! "mass"%string) /\ is_Some (o !! "stiffness"%string)
     /\ is_Some (o !! "damping"%string)) ->
  exists (m : Spring) (x1 y1 x2 y2 : R),
    constructor (CfgObject o) = Ok m
    /\ generateBezierPoints m = [Fin x1; Fin y1; Fin x2; Fin y2]
    /\ 0 <= x1 < x2 /\ x2 <= 1
    /\ 0 <= y1 /\ 1 <= y2 <= 1.2.
Proof.
  intros Hmiss. rewrite (constructor_default_path o Hmiss).
  destruct (clamp_or_default_range (o !! "bounce"%string)) as (c & Hc & Hrange).
  rewrite Hc.
  exists (initFromDurationAndBounce (or_default (o !! "duration"%string) 0.5) c).
  rewrite (generateBezierPoints_by_bounce _ c) by reflexivity.
  destruct (Rle_dec c 0) as [Hneg | Hpos].
  - rewrite Rabs_left1 by assumption.
    do 4 eexists. split; [reflexivity |]. split; [reflexivity |]. lra.
  - do 4 eexists. split; [reflexivity |]. split; [reflexivity |]. lra.
Qed.

Lemma bezier_points_valid_on_default_path_witness :
  exists (m : Spring) (x1 y1 x2 y2 : R),
    constructor (CfgObject {[ "bounce"%string := Fin 7 ]}) = Ok m
    /\ generateBezierPoints m = [Fin x1; Fin y1; Fin x2; Fin y2]
    /\ 0 <= x1 < x2 /\ x2 <= 1
    /\ 0 <= y1 /\ 1 <= y2 <= 1.2.
Proof.
  apply bezier_points_valid_on_default_path.
  intros ([x Hx] & _). vm_compute in Hx. discriminate.
Defined.

Lemma or_default_duration (dopt : option R) :
  0 < default 0.5 dopt ->
  or_default (Fin <$> dopt) 0.5 = Fin (default 0.5 dopt).
Proof.
  intros Hd. destruct dopt as [d |]; [| reflexivity].
  change (Fin <$> Some d) with (Some (Fin d)).
  change (default 0.5 (Some d)) with d in *.
  rewrite or_default_Fin. destruct (Req_dec_T d 0); [lra | reflexivity].
Qed.

(** X8. A configuration with no bounce (or bounce 0) and a duration
    between 0 and [4*pi] seconds - the default configuration included -
    resolves to a model whose value is [NaN] at every elapsed time. *)
Theorem zero_bounce_config_is_NaN (o : gmap string num) (dopt : option R) :
  ~ (is_Some (o !! "mass"%string) /\ is_Some (o !! "stiffness"%string)
     /\ is_Some (o !! "damping"%string)) ->
  o !! "duration"%string = Fin <$> dopt ->
  o !! "bounce"%string = None \/ o !! "bounce"%string = Some (Fin 0) ->
  0 < default 0.5 dopt < 4 * PI ->
  exists m : Spring,
    constructor (CfgObject o) = Ok m
    /\ forall t : num, calculateSpringValue m t = NaN.
Proof.
  intros Hmiss Hdur Hbounce Hd.
  rewrite (constructor_default_path o Hmiss), Hdur.
  rewrite or_default_duration by lra.
  assert (Hb : or_default (o !! "bounce"%string) 0 = Fin 0).
  { destruct Hbounce as [-> | ->]; [reflexivity | apply or_default_zero]. }
  rewrite Hb, clamp_Fin, clamp_id by lra.
  eexists; split; [reflexivity |].
  intros t. now apply zero_bounce_is_NaN.
Qed.

Lemma zero_bounce_config_is_NaN_witness :
  exists m : Spring,
    constructor (CfgObject ∅) = Ok m
    /\ forall t : num, calculateSpringValue m t = NaN.
Proof.
  apply (zero_bounce_config_is_NaN ∅ None).
  - intros ([x Hx] & _). rewrite lookup_empty in Hx. discriminate.
  - reflexivity.
  - left. reflexivity.
  - pose proof PI_bounds. cbn. lra.
Defined.

(** X9. A positive bounce [b <= 1] with a duration below [4*pi*b] seconds
    resolves to a model with negative damping: its value is unbounded,
    for every bound [M] there is an elapsed time [t >= 0] at which the
    value exceeds [M]. *)
Theorem bouncy_config_diverges (d b : R) :
  0 < b <= 1 -> 0 < d < 4 * PI * b ->
  exists m : Spring,
    fromDurationAndBounce d b = Ok m
    /\ forall M : R, exists t v : R,
         0 <= t /\ calculateSpringValue m t = Fin v /\ M < v.
Proof.
  intros [Hb Hb1] [Hd Hlt].
  pose proof PI_RGT_0 as Hpi.
  unfold fromDurationAndBounce.
  rewrite constructor_default_path.
  - rewrite lookup_insert_eq, lookup_insert_ne, lookup_singleton_eq by discriminate.
    rewrite or_default_Fin, or_default_zero, clamp_Fin, clamp_id by lra.
    destruct (Req_dec_T d 0); [lra |].
    eexists; split; [reflexivity |].
    apply negative_damping_diverges; try lra.
    assert (0 < d / (4 * PI)) by (apply Rdiv_lt_0_compat; lra).
    lra.
  - intros ([x Hx] & _).
    rewrite lookup_insert_ne, lookup_singleton_ne in Hx by discriminate.
    discriminate.
Qed.

Lemma bouncy_config_diverges_witness :
  exists m : Spring,
    fromDurationAndBounce 0.5 0.3 = Ok m
    /\ forall M : R, exists t v : R,
         0 <= t /\ calculateSpringValue m t = Fin v /\ M < v.
Proof.
  apply bouncy_config_diverges; pose proof PI_bounds; lra.
Defined.



End EvaluatorProperties.

(** ** The frame loop of [animate] *)

Section FrameLoop.

Import Animation.

Variable show : num -> string.

(** The assignments of the frame loop are those of
    [updateElementProperties] on the values of the frames. *)
Lemma tick_frameValues (this : instance) (s e t0 : num) (frames : list num) :
  tick show this s e t0 frames
  = flat_map (updateElementProperties show this) (frameValues this s e t0 frames).
Proof.
  induction frames as [| t later IH]; [reflexivity |].
  cbn [tick frameValues].
  destruct (elapsed_at t0 t >=? duration (spring this) * 1.5)%js.
  - cbn [flat_map]. now rewrite app_nil_r.
  - cbn [flat_map]. now rewrite IH.
Qed.

(** X11. The frame loop stops at the first frame whose elapsed time has
    reached [1.5 * duration]: frames that come after such a frame change
    nothing, and the last assignments made are those of the end value. *)
Theorem animate_snaps_and_stops (this : instance) (s e t0 : num)
    (before : list num) (t : num) (after : list num) :
  useBezier this = false ->
  (elapsed_at t0 t >=? duration (spring this) * 1.5)%js = true ->
  animate show this s e t0 (before ++ t :: after)
  = animate show this s e t0 (before ++ [t])
  /\ exists earlier : list assignment,
       animate show this s e t0 (before ++ t :: after)
       = earlier ++ updateElementProperties show this e.
Proof.
  intros Hspring Hdone. unfold animate. rewrite Hspring.
  induction before as [| f before IH]; cbn [app tick].
  - rewrite Hdone. split; [reflexivity | now exists []].
  - destruct (elapsed_at t0 f >=? duration (spring this) * 1.5)%js.
    + split; [reflexivity | now exists []].
    + destruct IH as [IH1 [earlier IH2]]. split.
      * now rewrite IH1.
      * exists (updateElementProperties show this
                  (currentValue this s e (elapsed_at t0 f)) ++ earlier).
        now rewrite IH2, app_assoc.
Qed.

End FrameLoop.

Lemma animate_snaps_and_stops_witness :
  let this := Animation.mkInstance (mkSpring 1 1 2 1 0) ["opacity"%string] false in
  Animation.animate (fun _ => "n"%string) this 0 100 0 ([Fin 500] ++ Fin 2000 :: [Fin 2016])
  = Animation.animate (fun _ => "n"%string) this 0 100 0 ([Fin 500] ++ [Fin 2000])
  /\ exists earlier : list Animation.assignment,
       Animation.animate (fun _ => "n"%string) this 0 100 0 ([Fin 500] ++ Fin 2000 :: [Fin 2016])
       = earlier ++ Animation.updateElementProperties (fun _ => "n"%string) this 100.
Proof.
  intros this. apply animate_snaps_and_stops; [reflexivity |].
  unfold Animation.elapsed_at. cbn [Animation.spring duration this].
  js_arith. apply le_Fin_true. lra.
Defined.

Section FrameValues.

Import Animation.

Variable show : num -> string.


Lemma zero_bounce_frameValues (this : instance) (d : R) (s e t0 : num)
    (frames : list num) :
  0 < d < 4 * PI ->
  spring this = initFromDurationAndBounce d 0 ->
  exists n : nat,
    frameValues this s e t0 frames = repeat NaN n
    \/ frameValues this s e t0 frames = repeat NaN n ++ [e].
Proof.
  intros Hd Hthis.
  assert (Hnan : forall el : num, currentValue this s e el = NaN).
  { intros el. unfold currentValue. rewrite Hthis, zero_bounce_is_NaN by assumption.
    now rewrite mul_NaN_r, add_NaN_r. }
  induction frames as [| t later [n IH]]; [exists 0%nat; now left |].
  cbn [frameValues].
  destruct (elapsed_at t0 t >=? duration (spring this) * 1.5)%js.
  - exists 0%nat. now right.
  - rewrite Hnan. exists (S n). destruct IH as [-> | ->]; [left | right]; reflexivity.
Qed.

(** X13. With bounce 0 and a duration between 0 and [4*pi] seconds (the
    default configuration, the preset ["smooth"]) every frame before the
    closing one writes the properties with the value [NaN]; only the
    closing frame, if it comes, writes the end value. *)
Theorem zero_bounce_frames_write_NaN (this : instance) (d : R) (s e t0 : num)
    (frames : list num) :
  0 < d < 4 * PI ->
  spring this = initFromDurationAndBounce d 0 ->
  useBezier this = false ->
  exists n : nat,
    let blanks := flat_map (updateElementProperties show this) (repeat NaN n) in
    animate show this s e t0 frames = blanks
    \/ animate show this s e t0 frames
       = blanks ++ updateElementProperties show this e.
Proof.
  intros Hd Hthis Hspring. unfold animate. rewrite Hspring, tick_frameValues.
  destruct (zero_bounce_frameValues this d s e t0 frames Hd Hthis) as [n [-> | ->]];
    exists n; cbn zeta; [now left | right].
  rewrite flat_map_app. cbn [flat_map]. now rewrite app_nil_r.
Qed.

(** X14. When the duration of the model is [NaN] (or undefined, as for
    [new Spring("toString")]) the comparison that ends the loop is never
    true: every frame is processed, however late it comes, and the end
    value is never snapped to. *)
Theorem NaN_duration_never_stops (this : instance) (s e t0 : num)
    (frames : list num) :
  duration (spring this) = NaN ->
  useBezier this = false ->
  animate show this s e t0 frames
  = flat_map (fun t => updateElementProperties show this
                         (currentValue this s e (elapsed_at t0 t))) frames.
Proof.
  intros Hnan Hspring. unfold animate. rewrite Hspring.
  induction frames as [| t later IH]; [reflexivity |].
  cbn [tick flat_map]. rewrite Hnan.
  assert (Hcmp : (elapsed_at t0 t >=? NaN * 1.5)%js = false).
  { rewrite mul_NaN_l. now destruct (elapsed_at t0 t). }
  now rewrite Hcmp, IH.
Qed.

End FrameValues.


Lemma zero_bounce_frames_write_NaN_witness :
  let show := fun _ : num => "n"%string in
  let this := Animation.mkInstance (initFromDurationAndBounce 0.5 0)
                ["transform"%string] false in
  exists n : nat,
    Animation.animate show this 0 100 0 [Fin 16; Fin 32; Fin 800]
    = flat_map (Animation.updateElementProperties show this) (repeat NaN n)
    \/ Animation.animate show this 0 100 0 [Fin 16; Fin 32; Fin 800]
       = flat_map (Animation.updateElementProperties show this) (repeat NaN n)
           ++ Animation.updateElementProperties show this 100.
Proof.
  intros show this.
  apply (zero_bounce_frames_write_NaN show this 0.5); [| reflexivity | reflexivity].
  pose proof PI_bounds. lra.
Defined.

Lemma NaN_duration_never_stops_witness :
  let show := fun _ : num => "n"%string in
  let this := Animation.mkInstance (initFromDurationAndBounce NaN NaN)
                ["transform"%string] false in
  constructor (CfgString "toString") = Ok (Animation.spring this)
  /\ Animation.animate show this 0 100 0 [Fin 16; Fin 1000000]
     = flat_map (fun t => Animation.updateElementProperties show this
                            (Animation.currentValue this 0 100 (Animation.elapsed_at 0 t)))
         [Fin 16; Fin 1000000].
Proof.
  intros show this. split; [reflexivity |].
  apply NaN_duration_never_stops; reflexivity.
Defined.

(** ** The assignments to the style *)

Section StyleWrites.

Import Animation.

Variable show : num -> string.

Lemma assign_app (style : gmap string string) (ws1 ws2 : list assignment) :
  assign style (ws1 ++ ws2) = assign (assign style ws1) ws2.
Proof. unfold assign. apply foldl_app. Qed.

Lemma assign_other_keys (style : gmap string string) (ws : list assignment)
    (k : string) :
  Forall (fun w => fst w <> k) ws ->
  assign style ws !! k = style !! k.
Proof.
  revert style. induction ws as [| w ws IH]; intros style Hws; [reflexivity |].
  apply Forall_cons in Hws as [Hw Hws].
  change (assign style (w :: ws)) with (assign (<[fst w := snd w]> style) ws).
  rewrite IH by assumption. now apply lookup_insert_ne.
Qed.

Lemma updateElementProperty_key (value : num) (property : string) :
  property <> "transform"%string -> property <> "scale"%string ->
  fst (updateElementProperty show value property) <> "transform"%string.
Proof.
  intros Ht Hs. unfold updateElementProperty.
  destruct (String.eqb_spec property "transform"); [contradiction |].
  destruct (String.eqb_spec property "opacity"); [subst; discriminate |].
  destruct (String.eqb_spec property "scale"); [contradiction |].
  exact Ht.
Qed.

(** X15. ['transform'] and ['scale'] are both written to
    [style.transform]: when both are listed, the one listed last decides
    the style and the assignment of the other is lost. *)
Theorem last_of_transform_and_scale_wins (this : instance) (value : num)
    (style : gmap string string) (first later : list string) (p : string) :
  p = "transform"%string \/ p = "scale"%string ->
  properties this = first ++ p :: later ->
  ~ In "transform"%string later -> ~ In "scale"%string later ->
  assign style (updateElementProperties show this value) !! "transform"%string
  = Some (snd (updateElementProperty show value p)).
Proof.
  intros Hp Hprops Ht Hs.
  unfold updateElementProperties. rewrite Hprops, map_app. cbn [map].
  rewrite assign_app.
  change (assign ?st (?w :: ?ws)) with (assign (<[fst w := snd w]> st) ws).
  rewrite assign_other_keys.
  - assert (Hkey : fst (updateElementProperty show value p) = "transform"%string)
      by (destruct Hp as [-> | ->]; reflexivity).
    rewrite Hkey. apply lookup_insert_eq.
  - apply Forall_map, List.Forall_forall. intros q Hq. cbn.
    apply updateElementProperty_key; intros Heq; subst q; tauto.
Qed.

(** X16. On the bezier path every property assigns [style.transition]
    anew, so after [animate] the transition names the last property
    only. *)
Theorem bezier_transition_names_last_property (this : instance)
    (s e t0 : num) (frames : list num) (style : gmap string string)
    (first : list string) (p : string) :
  useBezier this = true ->
  properties this = first ++ [p] ->
  p <> "transition"%string ->
  assign style (animate show this s e t0 frames) !! "transition"%string
  = Some (p ++ " " ++ show (duration (spring this)) ++ "s "
            ++ bezierCurve show this)%string.
Proof.
  intros Hbezier Hprops Hp.
  unfold animate. rewrite Hbezier, Hprops, flat_map_app. cbn [flat_map].
  rewrite app_nil_r, assign_app.
  unfold applyBezierAnimation at 2.
  change (assign ?st [?w1; ?w2])
    with (<[fst w2 := snd w2]> (<[fst w1 := snd w1]> st)).
  rewrite lookup_insert_ne.
  - apply lookup_insert_eq.
  - destruct (String.eqb_spec p "transform"); [discriminate |].
    destruct (String.eqb_spec p "scale"); [discriminate |].
    exact Hp.
Qed.

(** X17. The two paths write ['opacity'] differently: the bezier path
    assigns the end value with a [px] suffix, the closing frame of the
    frame loop assigns the bare value. *)
Theorem opacity_written_with_and_without_px (this : instance)
    (s e t0 t : num) (frames : list num) :
  In "opacity"%string (properties this) ->
  (useBezier this = true ->
   In ("opacity"%string, (show e ++ "px")%string)
      (animate show this s e t0 frames))
  /\ (useBezier this = false ->
      (elapsed_at t0 t >=? duration (spring this) * 1.5)%js = true ->
      In ("opacity"%string, show e) (animate show this s e t0 [t])).
Proof.
  intros Hin. split.
  - intros Hbezier. unfold animate. rewrite Hbezier.
    apply in_flat_map. exists "opacity"%string. split; [assumption |].
    right. left. reflexivity.
  - intros Hspring Hdone. unfold animate. rewrite Hspring.
    cbn [tick]. rewrite Hdone.
    unfold updateElementProperties.
    change ("opacity"%string, show e)
      with (updateElementProperty show e "opacity").
    now apply in_map.
Qed.

End StyleWrites.

Lemma last_of_transform_and_scale_wins_witness :
  let show := fun _ : num => "n"%string in
  let this := Animation.mkInstance (mkSpring 1 1 2 1 0)
                ["transform"; "opacity"; "scale"]%string false in
  Animation.assign ∅ (Animation.updateElementProperties show this 5)
    !! "transform"%string
  = Some "scale(n)"%string.
Proof.
  intros show this.
  apply (last_of_transform_and_scale_wins show this 5 ∅
           ["transform"; "opacity"]%string [] "scale"%string).
  - right. reflexivity.
  - reflexivity.
  - intros [].
  - intros [].
Defined.

Lemma bezier_transition_names_last_property_witness :
  let show := fun _ : num => "n"%string in
  let this := Animation.mkInstance (mkSpring 1 1 2 1 0)
                ["transform"; "opacity"]%string true in
  Animation.assign ∅ (Animation.animate show this 0 1 0 []) !! "transition"%string
  = Some ("opacity" ++ " " ++ show (Fin 1) ++ "s "
            ++ Animation.bezierCurve show this)%string.
Proof.
  intros show this.
  apply (bezier_transition_names_last_property show this 0 1 0 [] ∅
           ["transform"%string] "opacity"%string).
  - reflexivity.
  - reflexivity.
  - discriminate.
Defined.

Lemma opacity_written_with_and_without_px_witness :
  let show := fun _ : num => "n"%string in
  In ("opacity"%string, "npx"%string)
     (Animation.animate show
        (Animation.mkInstance (mkSpring 1 1 2 1 0) ["opacity"%string] true)
        0 1 0 [])
  /\ In ("opacity"%string, "n"%string)
        (Animation.animate show
           (Animation.mkInstance (mkSpring 1 1 2 1 0) ["opacity"%string] false)
           0 1 0 [Fin 2000]).
Proof.
  intros show. split.
  - apply (proj1 (opacity_written_with_and_without_px show
                    (Animation.mkInstance (mkSpring 1 1 2 1 0) ["opacity"%string] true)
                    0 1 0 0 [] (or_introl eq_refl))).
    reflexivity.
  - apply (proj2 (opacity_written_with_and_without_px show
                    (Animation.mkInstance (mkSpring 1 1 2 1 0) ["opacity"%string] false)
                    0 1 0 (Fin 2000) [] (or_introl eq_refl))).
    + reflexivity.
    + unfold Animation.elapsed_at. cbn [Animation.spring duration].
      js_arith. apply le_Fin_true. lra.
Defined.

(** ** springs.js *)

Section SpringsJsProperties.



Lemma lower_ascii_idempotent (c : ascii) :
  SpringsJs.lower_ascii (SpringsJs.lower_ascii c) = SpringsJs.lower_ascii c.
Proof. destruct c as [[] [] [] [] [] [] [] []]; reflexivity. Qed.

Lemma toLowerCase_idempotent (s : string) :
  SpringsJs.toLowerCase (SpringsJs.toLowerCase s) = SpringsJs.toLowerCase s.
Proof.
  induction s as [| c s IH]; [reflexivity |].
  cbn [SpringsJs.toLowerCase]. now rewrite lower_ascii_idempotent, IH.
Qed.

(** X19. [applyPreset] of springs.js matches the name without regard to
    the case of its ASCII letters, and whatever the name it leaves the
    mass and the duration of the instance as they are. *)
Theorem springs_js_applyPreset_case_and_frame (this : Spring) (preset : string) :
  SpringsJs.applyPreset this preset
  = SpringsJs.applyPreset this (SpringsJs.toLowerCase preset)
  /\ mass (SpringsJs.applyPreset this preset) = mass this
  /\ duration (SpringsJs.applyPreset this preset) = duration this.
Proof.
  unfold SpringsJs.applyPreset. rewrite toLowerCase_idempotent.
  split; [reflexivity |].
  destruct (SpringsJs.presets !! SpringsJs.toLowerCase preset); [now split |].
  destruct (decide (SpringsJs.toLowerCase preset ∈ Object_prototype)); now split.
Qed.

End SpringsJsProperties.

(** ** springs.js: text to configuration *)

Section TextFacts.

Import JSString SpringsJsParse.

Lemma trimStart_occurs (c : ascii) (s : string) :
  occurs c (trimStart s) -> occurs c s.
Proof.
  unfold occurs. induction s as [| a s IH]; cbn; [tauto |].
  destruct (is_whitespace a); cbn; tauto.
Qed.

Lemma trimEnd_occurs (c : ascii) (s : string) :
  occurs c (trimEnd s) -> occurs c s.
Proof.
  unfold occurs. induction s as [| a s IH]; cbn; [tauto |].
  destruct (trimEnd s) as [| b kept].
  - destruct (is_whitespace a); cbn; tauto.
  - cbn in *. tauto.
Qed.

Lemma trim_occurs (c : ascii) (s : string) : occurs c (trim s) -> occurs c s.
Proof. intros H. now apply trimStart_occurs, trimEnd_occurs. Qed.

Lemma split_nonempty (sep : ascii) (s : string) : split sep s <> [].
Proof.
  induction s as [| a s IH]; cbn; [discriminate |].
  destruct (Ascii.eqb a sep); [discriminate |].
  destruct (split sep s); discriminate.
Qed.

(** A piece of a split holds characters of the text only, and never the
    separator. *)
Lemma split_pieces (sep : ascii) (s : string) :
  Forall (fun piece => ~ occurs sep piece
                       /\ forall c, occurs c piece -> occurs c s)
         (split sep s).
Proof.
  unfold occurs. induction s as [| a s IH]; cbn.
  - constructor; [| constructor]. cbn. tauto.
  - destruct (Ascii.eqb_spec a sep) as [-> | Hne].
    + constructor.
      * cbn. tauto.
      * eapply Forall_impl; [exact IH |]. cbn. intros piece [H1 H2]. split; auto.
    + destruct (split sep s) as [| piece pieces] eqn:Hsplit;
        [now elim (split_nonempty sep s) |].
      apply Forall_cons in IH as [[H1 H2] IH].
      constructor.
      * cbn. split; [intros [? | ?]; [congruence | tauto] |].
        intros c [? | ?]; auto.
      * eapply Forall_impl; [exact IH |]. cbn. intros q [H3 H4]. split; auto.
Qed.

Lemma split_without_separator (sep : ascii) (s : string) :
  ~ occurs sep s -> split sep s = [s].
Proof.
  unfold occurs. induction s as [| a s IH]; cbn; [reflexivity |].
  intros H. destruct (Ascii.eqb_spec a sep) as [-> | Hne]; [tauto |].
  rewrite IH by tauto. reflexivity.
Qed.

(** Every value that the reducer stores is free of commas. *)
Lemma collect_comma_free (acc : gmap string string) (param : string) :
  ~ occurs "," param ->
  map_Forall (fun _ v => ~ occurs "," v) acc ->
  map_Forall (fun _ v => ~ occurs "," v) (collect acc param).
Proof.
  intros Hparam Hacc. unfold collect, key_value.
  pose proof (split_pieces ":" param) as Hpieces.
  destruct (split ":" param) as [| k [| v rest]]; cbn [map]; try assumption.
  destruct (nonempty (trim k) && nonempty (trim v)); [| assumption].
  destruct (String.eqb (trim k) "__proto__"); [assumption |].
  apply map_Forall_insert_2; [| assumption].
  apply Forall_cons in Hpieces as [_ Hpieces].
  apply Forall_cons in Hpieces as [[_ Hv] _].
  intros Hin. apply Hparam, Hv. now apply trim_occurs.
Qed.

Lemma params_comma_free (pieces : list string) (acc : gmap string string) :
  Forall (fun piece => ~ occurs "," piece) pieces ->
  map_Forall (fun _ v => ~ occurs "," v) acc ->
  map_Forall (fun _ v => ~ occurs "," v) (foldl collect acc pieces).
Proof.
  revert acc. induction pieces as [| p pieces IH]; intros acc Hp Hacc; [assumption |].
  apply Forall_cons in Hp as [Hp Hps].
  cbn [foldl]. apply IH; [assumption |]. now apply collect_comma_free.
Qed.

Lemma split_at_separator (sep : ascii) (a b : string) :
  split sep (a ++ String sep b) = split sep a ++ split sep b.
Proof.
  induction a as [| c a IH].
  - change (split sep (String sep b) = [EmptyString] ++ split sep b).
    cbn [split]. now rewrite Ascii.eqb_refl.
  - change (split sep (String c (a ++ String sep b))
            = split sep (String c a) ++ split sep b).
    cbn [split].
    destruct (Ascii.eqb c sep); [now rewrite IH |].
    rewrite IH.
    destruct (split sep a) eqn:Hsplit; [now elim (split_nonempty sep a) |].
    reflexivity.
Qed.

Lemma occurs_app (c : ascii) (a b : string) :
  occurs c (a ++ b) <-> occurs c a \/ occurs c b.
Proof.
  unfold occurs. induction a as [| x a IH].
  - change (EmptyString ++ b)%string with b. cbn. tauto.
  - change (String x a ++ b)%string with (String x (a ++ b)). cbn.
    rewrite IH. tauto.
Qed.

End TextFacts.

Section SpringsJsText.

Import JSString SpringsJsParse.

Variable parseFloat : string -> num.

(** X20. Whatever the text and whatever [parseFloat] makes of its parts,
    the duration, the bounce and the mass that [parseShorthand] returns
    are neither 0 nor [NaN]: a value that is missing, unreadable or zero
    is replaced by the default (0.5, 0.2, 1), so a bounce of 0 cannot be
    written in the shorthand. *)
Theorem parseShorthand_numbers_are_truthy (springShorthand : string) :
  let r := parseShorthand parseFloat springShorthand in
  truthy (sh_duration r) = true
  /\ truthy (sh_bounce r) = true
  /\ truthy (sh_mass r) = true.
Proof.
  cbn zeta. unfold parseShorthand. cbn [sh_duration sh_bounce sh_mass].
  repeat split; apply or_default_truthy, truthy_Fin; lra.
Qed.

(** X21. [parseShorthand] never returns more than one property.  The text
    is cut at the commas before the entries are read, so the value of
    [properties] holds no comma, and cutting it at the commas again
    yields a single name. *)
Theorem parseShorthand_has_one_property (springShorthand : string) :
  exists property : string,
    sh_properties (parseShorthand parseFloat springShorthand) = [property].
Proof.
  unfold parseShorthand. cbn [sh_properties].
  set (params := foldl collect ∅ (split "," springShorthand)).
  assert (Hfree : map_Forall (fun _ v => ~ occurs "," v) params).
  { apply params_comma_free; [| apply map_Forall_empty].
    eapply Forall_impl; [apply split_pieces |]. cbn. tauto. }
  destruct (params !! "properties"%string) as [text |] eqn:Htext.
  - rewrite split_without_separator by (exact (Hfree _ _ Htext)).
    now exists (trim text).
  - now exists "transform"%string.
Qed.

(** X22. [fromAttributes] reads the duration, the bounce, the mass and
    the properties only: the model always has stiffness 100 and damping
    10, its duration, bounce and mass are neither 0 nor [NaN], and its
    list of properties is never empty. *)
Theorem fromAttributes_model (attributes : gmap string string) :
  let m := fst (fromAttributes parseFloat attributes) in
  stiffness m = Fin 100 /\ damping m = Fin 10
  /\ truthy (duration m) = true /\ truthy (bounce m) = true
  /\ truthy (mass m) = true
  /\ snd (fromAttributes parseFloat attributes) <> [].
Proof.
  cbn zeta. unfold fromAttributes, SpringsJs.constructor.
  cbn [fst snd mass stiffness damping duration bounce].
  rewrite lookup_insert_eq.
  rewrite !(lookup_insert_ne _ "duration"%string) by discriminate.
  rewrite lookup_insert_eq.
  rewrite !(lookup_insert_ne _ "bounce"%string) by discriminate.
  rewrite lookup_singleton_eq, !lookup_singleton_ne by discriminate.
  cbn [default].
  repeat split; try (apply or_default_truthy, truthy_Fin; lra).
  destruct (attributes !! "data-spring-properties"%string) as [[| c text] |];
    try discriminate.
  destruct (split "," (String c text)) eqn:Hsplit; [| discriminate].
  now elim (split_nonempty "," (String c text)).
Qed.

End SpringsJsText.

(** ** The [data-spring] attribute *)

Section DataSpring.

Import JSString DataAttribute.

Variable isNaN : string -> bool.
Variable parseFloat : string -> num.

(** X23. A [preset] entry in the attribute has no effect:
    [data-spring="preset:NAME"] builds the model of the default
    configuration (duration 0.5, bounce 0), with the property
    ['transform'] and without bezier, whatever the name. *)
Theorem preset_entry_is_ignored (name : string) :
  ~ occurs "," name -> ~ occurs ":" name ->
  fromElement isNaN parseFloat (Some ("preset:" ++ name)%string)
  = Ok (New (Ok {| Animation.spring :=
                     {| mass := 1; stiffness := Fin ((2 * PI / 0.5) ^ 2);
                        damping := 1; duration := 0.5; bounce := 0 |};
                   Animation.properties := ["transform"%string];
                   Animation.useBezier := false |})).
Proof.
  intros Hcomma Hcolon.
  unfold fromElement, parseDataAttribute.
  change ("preset:" ++ name)%string with (String "p" ("reset:" ++ name)).
  change (String "p" ("reset:" ++ name)) with ("preset" ++ String ":" name)%string.
  assert (Hwhole : ~ occurs "," ("preset" ++ String ":" name)%string).
  { intros H. apply occurs_app in H as [H | H].
    - unfold occurs in H. cbn in H. intuition discriminate.
    - unfold occurs in H. cbn in H. destruct H as [H | H]; [discriminate | auto]. }
  rewrite (split_without_separator "," _ Hwhole).
  cbn [readPairs]. unfold readPair, SpringsJsParse.key_value.
  rewrite split_at_separator, (split_without_separator ":" name) by assumption.
  change (split ":" "preset") with ["preset"%string].
  cbn [app map]. change (trim "preset") with "preset"%string.
  cbn [String.eqb Ascii.eqb Bool.eqb andb].
  assert (Hstored : exists p : param,
             (if isNaN (trim name)
              then Ok (store ∅ "preset" (PString (trim name)))
              else Ok (store ∅ "preset" (PNumber (parseFloat (trim name)))))
             = Ok ({[ "preset"%string := p ]} : gmap string param)).
  { destruct (isNaN (trim name)); eexists; reflexivity. }
  destruct Hstored as [p ->].
  unfold newSpring.
  assert (Hother : forall k : string,
             k <> "preset"%string ->
             ({[ "preset"%string := p ]} : gmap string param) !! k = None).
  { intros k Hk. now apply lookup_singleton_ne. }
  change ("preset" ++ String ":" name)%string
    with (String "p" ("reset" ++ String ":" name)).
  cbv beta iota.
  unfold numeric_keys, not_numeric_under. cbn [existsb].
  rewrite !Hother by discriminate. cbn [orb].
  rewrite constructor_without_numeric_keys, constructor_empty_config;
    try (rewrite lookup_omap, Hother by discriminate; reflexivity).
  reflexivity.
Qed.

Lemma readPair_throws_TypeError (params : gmap string param) (entry message : string) :
  readPair isNaN parseFloat params entry = Throw message -> message = "TypeError"%string.
Proof.
  unfold readPair. destruct (SpringsJsParse.key_value entry) as [key [text |]].
  - destruct (String.eqb key "properties"); [discriminate |].
    destruct (String.eqb key "bezierAnimation"); [discriminate |].
    destruct (isNaN text); discriminate.
  - destruct (String.eqb key "properties"); [congruence |].
    destruct (String.eqb key "bezierAnimation"); [congruence | discriminate].
Qed.

Lemma readPairs_bare_entry (entries : list string) (entry key : string)
    (params : gmap string param) :
  In entry entries ->
  SpringsJsParse.key_value entry = (key, None) ->
  key = "properties"%string \/ key = "bezierAnimation"%string ->
  readPairs isNaN parseFloat params entries = Throw "TypeError".
Proof.
  intros Hin Hentry Hkey. revert params.
  induction entries as [| e entries IH]; intros params; [contradiction |].
  cbn [readPairs].
  destruct (readPair isNaN parseFloat params e) as [params' | message] eqn:Hread.
  - destruct Hin as [-> | Hin]; [| now apply IH].
    unfold readPair in Hread. rewrite Hentry in Hread.
    destruct Hkey as [-> | ->]; discriminate.
  - now rewrite (readPair_throws_TypeError _ _ _ Hread).
Qed.

(** X24. An entry [properties] or [bezierAnimation] without a colon,
    anywhere in the attribute, makes [parseDataAttribute] (and so
    [fromElement]) throw a TypeError: nothing is returned for the other
    entries. *)
Theorem bare_entry_throws (text entry key : string) :
  text <> EmptyString ->
  In entry (split "," text) ->
  SpringsJsParse.key_value entry = (key, None) ->
  key = "properties"%string \/ key = "bezierAnimation"%string ->
  parseDataAttribute isNaN parseFloat (Some text) = Throw "TypeError"
  /\ fromElement isNaN parseFloat (Some text) = Throw "TypeError".
Proof.
  intros Htext Hin Hentry Hkey.
  assert (Hparse : parseDataAttribute isNaN parseFloat (Some text) = Throw "TypeError").
  { unfold parseDataAttribute. destruct text as [| c text]; [contradiction |].
    now rewrite (readPairs_bare_entry _ entry key ∅ Hin Hentry Hkey). }
  split; [exact Hparse |]. unfold fromElement. now rewrite Hparse.
Qed.

(** X25. For an attribute of the form
    [data-spring="duration:D, bounce:B"], with texts [D] and [B] that
    [isNaN] holds to be numbers, [fromElement] builds the model that
    [Spring.fromDurationAndBounce(parseFloat(D), parseFloat(B))] builds,
    with the property ['transform'] and without bezier. *)
Theorem duration_bounce_attribute (D B : string) :
  ~ occurs "," D -> ~ occurs ":" D -> ~ occurs "," B -> ~ occurs ":" B ->
  isNaN (trim D) = false -> isNaN (trim B) = false ->
  fromElement isNaN parseFloat (Some ("duration:" ++ D ++ ", bounce:" ++ B)%string)
  = Ok (New match fromDurationAndBounce (parseFloat (trim D)) (parseFloat (trim B)) with
            | Ok m => Ok {| Animation.spring := m;
                            Animation.properties := ["transform"%string];
                            Animation.useBezier := false |}
            | Throw message => Throw message
            end).
Proof.
  intros HcD HkD HcB HkB HnD HnB.
  set (first := ("duration" ++ String ":" D)%string).
  set (second := (" bounce" ++ String ":" B)%string).
  assert (Htext : ("duration:" ++ D ++ ", bounce:" ++ B)%string
                  = (first ++ String "," second)%string).
  { reflexivity. }
  assert (Hfirst : ~ occurs "," first).
  { unfold first. intros H. apply occurs_app in H as [H | H].
    - unfold occurs in H. cbn in H. intuition discriminate.
    - unfold occurs in H. cbn in H. destruct H as [H | H]; [discriminate | auto]. }
  assert (Hsecond : ~ occurs "," second).
  { unfold second. intros H. apply occurs_app in H as [H | H].
    - unfold occurs in H. cbn in H. intuition discriminate.
    - unfold occurs in H. cbn in H. destruct H as [H | H]; [discriminate | auto]. }
  unfold fromElement, parseDataAttribute. rewrite Htext.
  rewrite split_at_separator,
    (split_without_separator "," first Hfirst),
    (split_without_separator "," second Hsecond).
  cbn [app readPairs]. unfold readPair, SpringsJsParse.key_value.
  subst first second.
  rewrite (split_at_separator ":" "duration" D),
    (split_at_separator ":" " bounce" B),
    (split_without_separator ":" D HkD), (split_without_separator ":" B HkB).
  change (split ":" "duration") with ["duration"%string].
  change (split ":" " bounce") with [" bounce"%string].
  cbn [app map].
  change (trim "duration") with "duration"%string.
  change (trim " bounce") with "bounce"%string.
  cbn [String.eqb Ascii.eqb Bool.eqb andb].
  rewrite HnD, HnB.
  unfold store. cbn [String.eqb Ascii.eqb Bool.eqb andb].
  change (("duration" ++ String ":" D) ++ String "," (" bounce" ++ String ":" B))%string
    with (String "d" (("uration" ++ String ":" D)
                        ++ String "," (" bounce" ++ String ":" B))).
  cbv beta iota.
  set (d := parseFloat (trim D)). set (b := parseFloat (trim B)).
  unfold newSpring, numeric_keys, not_numeric_under. cbn [existsb].
  repeat first [ rewrite lookup_insert_eq
               | rewrite lookup_insert_ne by discriminate
               | rewrite lookup_empty ].
  cbn [orb].
  rewrite (omap_insert_Some numeric _ _ _ b) by reflexivity.
  rewrite (omap_insert_Some numeric _ _ _ d) by reflexivity.
  rewrite omap_empty.
  unfold fromDurationAndBounce.
  replace (<["bounce"%string := b]> (<["duration"%string := d]> (∅ : gmap string num)))
    with ({[ "duration"%string := d; "bounce"%string := b ]} : gmap string num)
    by (rewrite insert_empty; apply insert_insert_ne; discriminate).
  reflexivity.
Qed.

End DataSpring.

Lemma preset_entry_is_ignored_witness :
  DataAttribute.fromElement (fun _ => true) (fun _ => NaN) (Some "preset:bouncy"%string)
  = Ok (DataAttribute.New (Ok {| Animation.spring :=
                     {| mass := 1; stiffness := Fin ((2 * PI / 0.5) ^ 2);
                        damping := 1; duration := 0.5; bounce := 0 |};
                   Animation.properties := ["transform"%string];
                   Animation.useBezier := false |})).
Proof.
  apply (preset_entry_is_ignored (fun _ => true) (fun _ => NaN) "bouncy");
    unfold JSString.occurs; cbn; intuition discriminate.
Defined.

Lemma bare_entry_throws_witness :
  DataAttribute.parseDataAttribute (fun _ => true) (fun _ => NaN)
    (Some "duration:0.5, properties"%string) = Throw "TypeError"
  /\ DataAttribute.fromElement (fun _ => true) (fun _ => NaN)
       (Some "duration:0.5, properties"%string) = Throw "TypeError".
Proof.
  apply (bare_entry_throws (fun _ => true) (fun _ => NaN)
           "duration:0.5, properties" " properties" "properties").
  - discriminate.
  - vm_compute. auto.
  - reflexivity.
  - left. reflexivity.
Defined.

Lemma duration_bounce_attribute_witness :
  let isNumber := fun s : string => negb (String.eqb s "0.5" || String.eqb s "0.3") in
  let parse := fun s : string => if String.eqb s "0.5" then Fin 0.5 else Fin 0.3 in
  DataAttribute.fromElement isNumber parse (Some "duration:0.5, bounce:0.3"%string)
  = Ok (DataAttribute.New
          match fromDurationAndBounce 0.5 0.3 with
          | Ok m => Ok {| Animation.spring := m;
                          Animation.properties := ["transform"%string];
                          Animation.useBezier := false |}
          | Throw message => Throw message
          end).
Proof.
  intros isNumber parse.
  apply (duration_bounce_attribute isNumber parse "0.5" "0.3");
    try (unfold JSString.occurs; cbn; intuition discriminate);
    reflexivity.
Defined.
